(** * A shallow embedding of the ControlNet dataset pipeline

    Two scripts share the [dataset/] directory:
    - [generate_dataset.py] renders frames with Mitsuba and writes
      [renders/render_NNNN.png], [ao/ao_NNNN.png] and [metadata.jsonl];
    - [generate_sketches.py] reads those renders and writes
      [conditioning/conditioning_NNNN.png].

    The filesystem is a [gmap] from paths (relative to [dataset/]) to file
    contents.  The external libraries (OpenCV's colour conversion, blur and
    Canny detector, Mitsuba's loader and renderer, Python's [random]) are
    records of functions the definitions are parametric in; only the
    orchestration written in the scripts is modelled. *)

From Stdlib Require Import QArith Qround Qminmax ZArith Ascii String List Lia Lqa.
From stdpp Require Import gmap strings.

Open Scope string_scope.

(* ------------------------------------------------------------------ *)
(** ** Decimal formatting: Python's [f"{i:04d}"] *)

Module Fmt.

(** Decimal digits of [n], most significant first, as [str(n)] prints them
    ([[0]] for 0). [fuel] bounds the recursion. *)
Fixpoint digits_aux (fuel n : nat) (acc : list nat) : list nat :=
  match fuel with
  | O => n :: acc
  | S f => if Nat.ltb n 10 then n :: acc
           else digits_aux f (n / 10) (n mod 10 :: acc)
  end.

Definition digits (n : nat) : list nat := digits_aux n n [].

Definition digit_char (d : nat) : ascii := ascii_of_nat (48 + d).

Fixpoint string_of_digits (ds : list nat) : string :=
  match ds with
  | [] => EmptyString
  | d :: ds' => String (digit_char d) (string_of_digits ds')
  end.

(** [f"{n:04d}"]: [str(n)] left-padded with zeros to width 4. *)
Definition format_04d (n : nat) : string :=
  let ds := digits n in
  string_of_digits (repeat 0 (4 - length ds) ++ ds)%list.

(** Reading a decimal string back (Horner's rule). *)
Fixpoint parse_dec_acc (acc : nat) (s : string) : nat :=
  match s with
  | EmptyString => acc
  | String c s' => parse_dec_acc (acc * 10 + (nat_of_ascii c - 48)) s'
  end.

Definition parse_dec (s : string) : nat := parse_dec_acc 0 s.

End Fmt.

(* ------------------------------------------------------------------ *)
(** ** Python's [str.replace(old, new)]: every non-overlapping occurrence
    of [old], scanned left to right, is replaced (for a non-empty [old]). *)

Fixpoint py_replace_aux (fuel : nat) (old new s : string) : string :=
  match fuel with
  | O => s
  | S f =>
      match s with
      | EmptyString => EmptyString
      | String c s' =>
          if String.prefix old s
          then new ++ py_replace_aux f old new
                        (substring (String.length old)
                                   (String.length s - String.length old) s)
          else String c (py_replace_aux f old new s')
      end
  end.

Definition py_replace (s old new : string) : string :=
  py_replace_aux (String.length s) old new s.

(* ------------------------------------------------------------------ *)
(** ** Images and files *)

(** A uint8 grayscale image (rows of pixels) and a uint8 3-channel image as
    OpenCV stores it: each pixel is (B, G, R). *)
Definition gimg := list (list Z).
Definition cimg := list (list (Z * Z * Z)).

(** The contents of a file in [dataset/]: a grayscale PNG, a colour PNG, a
    text file, or bytes no image decoder accepts. *)
Inductive file :=
| PngGray (g : gimg)
| PngColor (c : cimg)
| TextFile (s : string)
| RawBytes (s : string).

#[global] Instance file_eq_dec : EqDecision file.
Proof. solve_decision. Defined.

Abbreviation FS := (gmap string file).

(** Same number of rows and, row by row, the same number of columns. *)
Fixpoint same_shape {A B} (a : list (list A)) (b : list (list B)) : bool :=
  match a, b with
  | [], [] => true
  | r :: a', s :: b' => Nat.eqb (length r) (length s) && same_shape a' b'
  | _, _ => false
  end.

Definition all_u8 (g : gimg) : Prop :=
  Forall (Forall (fun z => 0 <= z <= 255)%Z) g.

(** Dataset-relative paths of a frame's files, from its frame string. *)
Definition render_path_of (frame_str : string) : string :=
  "renders/render_" ++ frame_str ++ ".png".
Definition ao_path_of (frame_str : string) : string :=
  "ao/ao_" ++ frame_str ++ ".png".
Definition conditioning_path_of (frame_str : string) : string :=
  "conditioning/conditioning_" ++ frame_str ++ ".png".
Definition metadata_path : string := "metadata.jsonl".

(* ------------------------------------------------------------------ *)
(** ** The OpenCV operations the sketch stage calls *)

(** The library's own algorithms are not modelled: a record of the
    functions the script calls, with the shape and range behaviour the
    library documents ([cv_valid]). *)
Record OpenCV := {
  cvt_bgr2gray : cimg -> gimg;            (* cv2.cvtColor(_, COLOR_BGR2GRAY) *)
  decode_gray_of_color : cimg -> gimg;    (* cv2.imread(_, IMREAD_GRAYSCALE) of a colour PNG *)
  gaussian_blur : gimg -> nat * nat -> Z -> gimg;  (* cv2.GaussianBlur(_, ksize, sigmaX) *)
  canny : gimg -> Z -> Z -> gimg          (* cv2.Canny(_, low, high) *)
}.

Definition cv_valid (cv : OpenCV) : Prop :=
  (forall c, same_shape (cvt_bgr2gray cv c) c = true) /\
  (forall g k s, same_shape (gaussian_blur cv g k s) g = true) /\
  (forall g lo hi, same_shape (canny cv g lo hi) g = true) /\
  (forall g lo hi, all_u8 (canny cv g lo hi)).

(** [cv2.imread(path)]: a grayscale PNG is expanded to three equal
    channels; a missing or undecodable file gives [None]. *)
Definition imread_color (fs : FS) (p : string) : option cimg :=
  match fs !! p with
  | Some (PngColor c) => Some c
  | Some (PngGray g) => Some (map (map (fun v => (v, v, v))) g)
  | _ => None
  end.

(** [cv2.imread(path, cv2.IMREAD_GRAYSCALE)]. *)
Definition imread_grayscale (cv : OpenCV) (fs : FS) (p : string) : option gimg :=
  match fs !! p with
  | Some (PngGray g) => Some g
  | Some (PngColor c) => Some (decode_gray_of_color cv c)
  | _ => None
  end.

(** [cv2.bitwise_not] on a uint8 image. *)
Definition bitwise_not (g : gimg) : gimg := map (map (fun a => Z.lxor a 255)) g.

(** The pixel of a 1 x 1 image. *)
Definition px1 {A} (g : list (list A)) : option A :=
  match g with [[x]] => Some x | _ => None end.

(** [cv2.max]: the per-pixel maximum of two images of the same size.  Of
    two images of different sizes, a 1 x 1 one is taken as a scalar
    (OpenCV's "array op scalar") and compared with every pixel of the
    other; any other size mismatch raises [cv2.error] ([None]). *)
Definition cv_max (a b : gimg) : option gimg :=
  if same_shape a b then Some (zip_with (zip_with Z.max) a b)
  else match px1 a, px1 b with
       | Some x, _ => Some (map (map (Z.max x)) b)
       | None, Some y => Some (map (map (fun v => Z.max v y)) a)
       | None, None => None
       end.

(** [np.zeros_like]. *)
Definition zeros_like (g : gimg) : gimg := map (map (fun _ => 0%Z)) g.

(* ------------------------------------------------------------------ *)
(** ** [generate_sketches.py] *)

Module Sketch.

Definition CANNY_LOW : Z := 50.
Definition CANNY_HIGH : Z := 150.
(** [AO_WEIGHT = 0.6]. *)
Definition AO_WEIGHT : Q := 6 # 10.

(** [(x.astype(np.float32) * AO_WEIGHT).astype(np.uint8)] on one pixel;
    the product is non-negative, so the cast truncates to its floor. *)
Definition scale_px (x : Z) : Z := Qfloor (inject_Z x * AO_WEIGHT).

(** [ao_inverted = cv2.bitwise_not(ao_gray)];
    [ao_shading = (ao_inverted.astype(np.float32) * AO_WEIGHT).astype(np.uint8)]. *)
Definition ao_shading_of (ao_gray : gimg) : gimg :=
  map (map scale_px) (bitwise_not ao_gray).

(** Step 1: [Canny(GaussianBlur(cvtColor(beauty, BGR2GRAY), (5, 5), 0), 50, 150)]. *)
Definition canny_edges_of (cv : OpenCV) (beauty_bgr : cimg) : gimg :=
  canny cv (gaussian_blur cv (cvt_bgr2gray cv beauty_bgr) (5, 5) 0%Z)
        CANNY_LOW CANNY_HIGH.

Inductive event :=
| ErrorBeauty (render_path : string)      (* "[ERROR] Could not load beauty render" *)
| WarnNoAO (ao_path : string)             (* "[WARNING] Could not load AO map" *)
| Saved (frame_str out_path : string).    (* "[frame ...] ✓ ..." *)

Record state := mk_state {
  fs : FS;
  processed : nat;
  skipped : nat;
  log : list event
}.

(** [frame_str]: the basename with every "render_" removed, then every ".png" removed ([str.replace] with an empty replacement). *)
Definition frame_str_of (basename : string) : string :=
  py_replace (py_replace basename "render_" EmptyString) ".png" EmptyString.

Definition render_path_in (basename : string) : string := "renders/" ++ basename.

(** One iteration of the processing loop, for the render file [basename];
    [None] when [cv2.max] raises. *)
Definition frame_step (cv : OpenCV) (st : state) (basename : string)
  : option state :=
  let frame_str := frame_str_of basename in
  let render_path := render_path_in basename in
  let ao_path := ao_path_of frame_str in
  let out_path := conditioning_path_of frame_str in
  let beauty_bgr := imread_color (fs st) render_path in
  let ao_gray := imread_grayscale cv (fs st) ao_path in
  match beauty_bgr with
  | None =>
      Some (mk_state (fs st) (processed st) (S (skipped st))
                     (log st ++ [ErrorBeauty render_path])%list)
  | Some b =>
      let log1 := match ao_gray with
                  | None => (log st ++ [WarnNoAO ao_path])%list
                  | Some _ => log st
                  end in
      let canny_edges := canny_edges_of cv b in
      let ao_shading := match ao_gray with
                        | Some a => ao_shading_of a
                        | None => zeros_like canny_edges
                        end in
      match cv_max canny_edges ao_shading with
      | None => None
      | Some shaded_sketch =>
          Some (mk_state (<[out_path := PngGray shaded_sketch]> (fs st))
                         (S (processed st)) (skipped st)
                         (log1 ++ [Saved frame_str out_path])%list)
      end
  end.

(** How the loop ends: normally, or by an exception that propagates out of
    the script (the files written so far stay on disk). *)
Inductive outcome :=
| Finished (st : state)
| Raised (st : state).


Fixpoint loop (cv : OpenCV) (st : state) (render_files : list string) : outcome :=
  match render_files with
  | [] => Finished st
  | b :: rest =>
      match frame_step cv st b with
      | None => Raised st
      | Some st' => loop cv st' rest
      end
  end.

Inductive run_result :=
| NoRenders                (* "No renders found", SystemExit(1) *)
| Ran (o : outcome).

(** The script, given the sorted basenames [glob] returned. *)
Definition run (cv : OpenCV) (fs0 : FS) (render_files : list string) : run_result :=
  match render_files with
  | [] => NoRenders
  | _ => Ran (loop cv (mk_state fs0 0 0 []) render_files)
  end.

End Sketch.

(* ------------------------------------------------------------------ *)
(** ** JSON lines: [json.dumps] of the metadata records *)

Module Json.

Set Warnings "-register-all".

(** The JSON values [json.dumps] receives here: strings and objects. *)
Inductive value :=
| JString (s : string)
| JObject (members : list (string * value)).

Definition hex_digit (n : nat) : ascii :=
  if Nat.ltb n 10 then ascii_of_nat (48 + n) else ascii_of_nat (87 + n).

(** One character of a string literal under [ensure_ascii=True]: the
    quote and backslash are backslash-escaped, the five short control
    escapes are used, and any other character outside [' '..'~'] becomes
    [\u00XX] (lowercase hex). *)
Definition escape_char (c : ascii) : string :=
  let n := nat_of_ascii c in
  if Nat.eqb n 34 then String "\" (String "034" EmptyString)
  else if Nat.eqb n 92 then String "\" (String "\" EmptyString)
  else if Nat.eqb n 10 then String "\" "n"
  else if Nat.eqb n 13 then String "\" "r"
  else if Nat.eqb n 9 then String "\" "t"
  else if Nat.eqb n 8 then String "\" "b"
  else if Nat.eqb n 12 then String "\" "f"
  else if (Nat.leb 32 n && Nat.leb n 126)%bool then String c EmptyString
  else String "\" (String "u" (String "0" (String "0"
         (String (hex_digit (n / 16)) (String (hex_digit (n mod 16)) EmptyString))))).

Fixpoint escape (s : string) : string :=
  match s with
  | EmptyString => EmptyString
  | String c s' => escape_char c ++ escape s'
  end.

Definition quote (s : string) : string :=
  String "034" (escape s ++ String "034" EmptyString).

(** [json.dumps] with its default separators [", "] and [": "]. *)
Fixpoint dumps (v : value) : string :=
  match v with
  | JString s => quote s
  | JObject ms =>
      let fix members (ms : list (string * value)) : string :=
        match ms with
        | [] => EmptyString
        | [(k, x)] => quote k ++ ": " ++ dumps x
        | (k, x) :: ms' => quote k ++ ": " ++ dumps x ++ ", " ++ members ms'
        end in
      "{" ++ members ms ++ "}"
  end.

(** The lines of a text file as a reader iterating over it sees them, each
    without its terminating newline. *)
Fixpoint lines_aux (cur : string) (s : string) : list string :=
  match s with
  | EmptyString => match cur with EmptyString => [] | _ => [cur] end
  | String c s' =>
      if Ascii.eqb c "010"%char then cur :: lines_aux EmptyString s'
      else lines_aux (cur ++ String c EmptyString) s'
  end.

Definition lines (s : string) : list string := lines_aux EmptyString s.

(** Whether a text contains no newline character. *)
Fixpoint newline_free (s : string) : bool :=
  match s with
  | EmptyString => true
  | String c s' => negb (Ascii.eqb c "010"%char) && newline_free s'
  end.

(** A reader for the JSON objects of [metadata.jsonl], as a consumer of the
    file parses them (RFC 8259, restricted to objects whose values are
    strings, and to characters below 256): whitespace, string literals with
    their escapes, and [{ key : value, ... }]. *)
Definition is_ws (c : ascii) : bool :=
  Ascii.eqb c " " || Ascii.eqb c "009" || Ascii.eqb c "010" || Ascii.eqb c "013".

Fixpoint skip_ws (s : string) : string :=
  match s with
  | String c s' => if is_ws c then skip_ws s' else s
  | EmptyString => s
  end.

Definition hex_val (c : ascii) : option nat :=
  let n := nat_of_ascii c in
  if Nat.leb 48 n && Nat.leb n 57 then Some (n - 48)
  else if Nat.leb 97 n && Nat.leb n 102 then Some (n - 87)
  else if Nat.leb 65 n && Nat.leb n 70 then Some (n - 55)
  else None.

(** One character of a string literal's body, escaped or not. *)
Definition decode_char (s : string) : option (ascii * string) :=
  match s with
  | String c r =>
      if Ascii.eqb c "\" then
        match r with
        | String e r' =>
            if Ascii.eqb e "034" then Some ("034"%char, r')
            else if Ascii.eqb e "\" then Some ("\"%char, r')
            else if Ascii.eqb e "/" then Some ("/"%char, r')
            else if Ascii.eqb e "n" then Some ("010"%char, r')
            else if Ascii.eqb e "r" then Some ("013"%char, r')
            else if Ascii.eqb e "t" then Some ("009"%char, r')
            else if Ascii.eqb e "b" then Some ("008"%char, r')
            else if Ascii.eqb e "f" then Some ("012"%char, r')
            else if Ascii.eqb e "u" then
              match r' with
              | String h1 (String h2 (String h3 (String h4 r''))) =>
                  match hex_val h1, hex_val h2, hex_val h3, hex_val h4 with
                  | Some a, Some b, Some c', Some d =>
                      let v := ((a * 16 + b) * 16 + c') * 16 + d in
                      if Nat.ltb v 256 then Some (ascii_of_nat v, r'') else None
                  | _, _, _, _ => None
                  end
              | _ => None
              end
            else None
        | EmptyString => None
        end
      else if Nat.ltb (nat_of_ascii c) 32 then None
      else Some (c, r)
  | EmptyString => None
  end.

(** The body of a string literal up to its closing quote. *)
Fixpoint string_body (fuel : nat) (s : string) : option (string * string) :=
  match fuel with
  | O => None
  | S f =>
      match s with
      | String c r =>
          if Ascii.eqb c "034" then Some (EmptyString, r)
          else match decode_char s with
               | Some (d, r') =>
                   match string_body f r' with
                   | Some (t, r'') => Some (String d t, r'')
                   | None => None
                   end
               | None => None
               end
      | EmptyString => None
      end
  end.

Definition string_lit (s : string) : option (string * string) :=
  match skip_ws s with
  | String c r => if Ascii.eqb c "034" then string_body (String.length r) r else None
  | EmptyString => None
  end.

(** The members of an object after its opening brace, through the closing
    brace. *)
Fixpoint members (fuel : nat) (s : string) : option (list (string * string) * string) :=
  match fuel with
  | O => None
  | S f =>
      match string_lit s with
      | Some (k, r) =>
          match skip_ws r with
          | String c1 r1 =>
              if Ascii.eqb c1 ":" then
                match string_lit r1 with
                | Some (v, r2) =>
                    match skip_ws r2 with
                    | String c2 r3 =>
                        if Ascii.eqb c2 "," then
                          match members f r3 with
                          | Some (ms, r4) => Some ((k, v) :: ms, r4)
                          | None => None
                          end
                        else if Ascii.eqb c2 "}" then Some ([(k, v)], r3)
                        else None
                    | EmptyString => None
                    end
                | None => None
                end
              else None
          | EmptyString => None
          end
      | None => None
      end
  end.

(** A whole line holding one non-empty object. *)
Definition parse_object (s : string) : option (list (string * string)) :=
  match skip_ws s with
  | String c r =>
      if Ascii.eqb c "{" then
        match members (String.length r) r with
        | Some (ms, rest) =>
            match skip_ws rest with EmptyString => Some ms | _ => None end
        | None => None
        end
      else None
  | EmptyString => None
  end.

End Json.

(* ------------------------------------------------------------------ *)
(** ** The Mitsuba and [random] calls of the generator *)

Definition vec3 := list Q.

Record Light := mk_light {
  direction : vec3;
  irradiance : vec3     (* {'type': 'rgb', 'value': ...} *)
}.

Record Principled := mk_principled {
  base_color : vec3;
  roughness : Q;
  sheen : Q;
  sheen_tint : Q;
  anisotropic : Q;
  specular : Q
}.

(** The scene dictionary passed to [mi.load_dict].  The camera is kept as
    the values its [look_at] origin is computed from (the trigonometry is
    not modelled); integrator, film and sampler settings are constants of
    the script and are left out. *)
Record Scene := mk_scene {
  sc_fov : Q;
  sc_cam_dist : Q;
  sc_cam_azimuth : Q;
  sc_cam_elevation : Q;
  sc_target : vec3;
  sc_key_light : Light;
  sc_fill_light : Light;
  sc_mesh : string;
  sc_yaw : Q;
  sc_pitch : Q;
  sc_bsdf : Principled
}.

(** [np.array(mi.render(scene))]: an H x W x C array of floats. *)
Record Buffer := mk_buffer {
  channels : nat;
  pixels : list (list (list Q))
}.

Record Mitsuba := {
  mi_bbox : string -> vec3 * vec3;   (* mesh bbox: (center, extents) *)
  mi_render : Scene -> Buffer
}.

(** Python's [random] module as a stream: the k-th call of [random()]
    and of [_randbelow(n)], the primitive under [choice]. *)
Record PyRandom := {
  py_random : nat -> Q;
  py_randbelow : nat -> nat -> nat
}.

Definition rng_valid (rnd : PyRandom) : Prop :=
  (forall k, 0 <= py_random rnd k /\ py_random rnd k < 1)%Q /\
  (forall n k, (0 < n)%nat -> (py_randbelow rnd n k < n)%nat).

(** A state monad over the position in the random stream. *)
Definition Rand (A : Type) := nat -> A * nat.
Definition rret {A} (a : A) : Rand A := fun k => (a, k).
Definition rbind {A B} (f : A -> Rand B) (m : Rand A) : Rand B :=
  fun k => let (a, k') := m k in f a k'.
Global Instance rand_ret : MRet Rand := @rret.
Global Instance rand_bind : MBind Rand := @rbind.

Section Random.
Context (rnd : PyRandom).

Definition random_ : Rand Q := fun k => (py_random rnd k, S k).

(** [random.uniform(a, b) = a + (b - a) * random()]. *)
Definition uniform (a b : Q) : Rand Q :=
  u ← random_; mret (a + (b - a) * u)%Q.

(** [random.choice(seq)]; the script only calls it on non-empty lists. *)
Definition choice {A} (d : A) (xs : list A) : Rand A :=
  fun k => (nth (py_randbelow rnd (length xs) k) xs d, S k).

End Random.

(* ------------------------------------------------------------------ *)
(** ** [generate_dataset.py] *)

Module Gen.

Definition NUM_SAMPLES : nat := 1000.

(** [roughness < 0.4] on the drawn value. *)
Definition py_lt (x y : Q) : bool := negb (Qle_bool y x).

Definition material_desc_of (roughness : Q) : string :=
  if py_lt roughness (4 # 10) then "shiny silk" else "matte wool".

Definition prompt_of (material_desc : string) : string :=
  "a photorealistic 3D render of a " ++ material_desc ++ " cloth, " ++
  "physical rendering, detailed fabric folds".

(** The light colour of each temperature bucket. *)
Definition light_temp (temp_choice : string) : vec3 :=
  if String.eqb temp_choice "warm" then [13 # 10; 1%Q; 7 # 10]
  else if String.eqb temp_choice "cool" then [8 # 10; 9 # 10; 13 # 10]
  else [1%Q; 1%Q; 1%Q].

Record MetaRecord := mk_record {
  file_name : string;
  conditioning_image : string;
  ao_image : string;
  text : string
}.

Definition record_json (r : MetaRecord) : Json.value :=
  Json.JObject [("file_name", Json.JString (file_name r));
                ("conditioning_image", Json.JString (conditioning_image r));
                ("ao_image", Json.JString (ao_image r));
                ("text", Json.JString (text r))].

(** [for record in metadata_records: f.write(json.dumps(record) + '\n')]. *)
Fixpoint metadata_text (recs : list MetaRecord) : string :=
  match recs with
  | [] => EmptyString
  | r :: rs => Json.dumps (record_json r) ++ String "010" EmptyString ++ metadata_text rs
  end.

(** [np.clip(x, 0.0, 1.0)] and [(x * 255).astype(np.uint8)] for x in [0, 1]. *)
Definition clip01 (x : Q) : Q := Qmin (Qmax x 0) 1.
Definition to_u8 (x : Q) : Z := Qfloor (x * 255).

(** One pixel of [cvtColor((clip(render_np[:, :, :3]) * 255).astype(uint8), RGB2BGR)]. *)
Definition beauty_px (px : list Q) : Z * Z * Z :=
  let c k := to_u8 (clip01 (nth k px 0%Q)) in (c 2, c 1, c 0).

Definition beauty_of (buf : Buffer) : cimg := map (map beauty_px) (pixels buf).

Definition mean3 (a b c : Q) : Q := (a + b + c) / 3.

(** [ao_gray]: the mean of channels 4..6 when the buffer has at least 7
    channels, else the mean of the colour channels. *)
Definition ao_gray_px (nch : nat) (px : list Q) : Q :=
  if Nat.leb 7 nch
  then mean3 (nth 4 px 0%Q) (nth 5 px 0%Q) (nth 6 px 0%Q)
  else mean3 (nth 0 px 0%Q) (nth 1 px 0%Q) (nth 2 px 0%Q).

(** [ao_uint8 = (np.clip(ao_gray, 0.0, 1.0) * 255).astype(np.uint8)]. *)
Definition ao_of (buf : Buffer) : gimg :=
  map (map (fun px => to_u8 (clip01 (ao_gray_px (channels buf) px)))) (pixels buf).

Inductive event :=
| Skipping (i : nat)                        (* "Skipping NNNN (already exists)" *)
| WarnNoAOV (frame_str : string)            (* "[WARNING] AOV channels not found" *)
| SavedFrame (i : nat) (material_desc : string).

Record state := mk_state {
  fs : FS;
  rng : nat;                 (* position in the random stream *)
  records : list MetaRecord; (* metadata_records *)
  log : list event
}.

Definition path_exists (m : FS) (p : string) : bool :=
  match m !! p with Some _ => true | None => false end.

(** The checkpoint test of frame [i]: both of its files exist. *)
Definition complete (m : FS) (i : nat) : bool :=
  path_exists m (render_path_of (Fmt.format_04d i)) &&
  path_exists m (ao_path_of (Fmt.format_04d i)).

(** [existing = sum(1 for j in range(NUM_SAMPLES) if ... exists ... and ... exists ...)]:
    the frames the checkpoint line reports as already done. *)
Definition existing (m : FS) (n : nat) : nat :=
  length (List.filter (complete m) (seq 0 n)).

Section Generator.
Context (mi : Mitsuba) (rnd : PyRandom) (mesh_files : list string).
Local Open Scope Q_scope.

(** The random draws of one frame, in the order the script makes them, and
    the scene dictionary and prompt built from them. *)
Definition draw_frame : Rand (Scene * string * string) :=
  current_mesh_path ← choice rnd EmptyString mesh_files;
  let '(center, extents) := mi_bbox mi current_mesh_path in
  let max_extent := Qmax (nth 0 extents 0) (Qmax (nth 1 extents 0) (nth 2 extents 0)) in
  zoom_factor ← uniform rnd (6 # 10) (9 # 10);
  let cam_dist := ((max_extent * 1 + 1) * zoom_factor)%Q in
  cam_azimuth ← uniform rnd 0 360;
  cam_elevation ← uniform rnd 10 70;
  fov ← uniform rnd 25 60;
  lx ← uniform rnd (-1) 1;
  ly ← uniform rnd (-2 # 10) 1;
  lz ← uniform rnd (-1) (-1 # 10);
  temp_choice ← choice rnd EmptyString ["warm"; "neutral"; "cool"];
  let lt := light_temp temp_choice in
  intensity ← uniform rnd (15 # 10) 6;
  let key_irr := [(nth 0 lt 0 * intensity)%Q; (nth 1 lt 0 * intensity)%Q;
                  (nth 2 lt 0 * intensity)%Q] in
  fill_factor ← uniform rnd (1 # 10) (4 # 10);
  let fill_intensity := (intensity * fill_factor)%Q in
  let fill_irr := [fill_intensity; fill_intensity; fill_intensity] in
  yaw ← uniform rnd 0 360;
  pitch ← uniform rnd (-20) 20;
  roughness ← uniform rnd (1 # 10) (9 # 10);
  r ← uniform rnd (1 # 10) (9 # 10);
  g ← uniform rnd (1 # 10) (9 # 10);
  b ← uniform rnd (1 # 10) (9 # 10);
  sheen ← uniform rnd 0 1;
  sheen_tint ← uniform rnd 0 1;
  anisotropic ← uniform rnd 0 (8 # 10);
  specular ← uniform rnd 0 1;
  let material_desc := material_desc_of roughness in
  let prompt := prompt_of material_desc in
  mret (mk_scene fov cam_dist cam_azimuth cam_elevation center
          (mk_light [lx; ly; lz] key_irr)
          (mk_light [(- lx)%Q; ly; (- lz)%Q] fill_irr)
          current_mesh_path yaw pitch
          (mk_principled [r; g; b] roughness sheen sheen_tint anisotropic specular),
        prompt, material_desc).

(** One iteration of the render loop. *)
Definition frame_step (st : state) (i : nat) : state :=
  let frame_str := Fmt.format_04d i in
  let render_path := render_path_of frame_str in
  let ao_path := ao_path_of frame_str in
  if complete (fs st) i then
    mk_state (fs st) (rng st) (records st) (log st ++ [Skipping i])%list
  else
    let '((scene, prompt, material_desc), k') := draw_frame (rng st) in
    let render_np := mi_render mi scene in
    let fs1 := <[render_path := PngColor (beauty_of render_np)]> (fs st) in
    let warn := if Nat.leb 7 (channels render_np) then [] else [WarnNoAOV frame_str] in
    let fs2 := <[ao_path := PngGray (ao_of render_np)]> fs1 in
    let record := mk_record ("renders/render_" ++ frame_str ++ ".png")
                            ("conditioning/conditioning_" ++ frame_str ++ ".png")
                            ("ao/ao_" ++ frame_str ++ ".png") prompt in
    mk_state fs2 k' (records st ++ [record])%list
             (log st ++ warn ++ [SavedFrame i material_desc])%list.

Definition loop (st : state) (idx : list nat) : state := fold_left frame_step idx st.

Inductive result :=
| NoMeshes                 (* "[ERROR] No .obj files found", SystemExit(1) *)
| Done (st : state).

(** The script with [NUM_SAMPLES = n], starting from the filesystem [fs0]
    and the random stream at position [k0]. *)
Definition run (n : nat) (fs0 : FS) (k0 : nat) : result :=
  match mesh_files with
  | [] => NoMeshes
  | _ =>
      let st := loop (mk_state fs0 k0 [] []) (seq 0 n) in
      Done (mk_state (<[metadata_path := TextFile (metadata_text (records st))]> (fs st))
                     (rng st) (records st) (log st))
  end.

End Generator.

End Gen.

(** The basename the generator gives the beauty render of frame [i],
    [f"render_{frame_str}.png"], as the sketch stage's [glob] lists it. *)
Definition render_basename (i : nat) : string := "render_" ++ Fmt.format_04d i ++ ".png".

(* ------------------------------------------------------------------ *)
(** ** Concrete instances, for evaluating statements on small inputs *)

(** OpenCV's fixed-point BGR to gray conversion
    ([(1868 B + 9617 G + 4899 R + 2^13) >> 14]). *)
Definition gray_px (p : Z * Z * Z) : Z :=
  let '(bl, g, r) := p in Z.shiftr (bl * 1868 + g * 9617 + r * 4899 + 8192) 14.

(** An instance of the OpenCV interface: the real colour conversion, no
    blur, and a single-threshold edge detector standing in for Canny. *)
Definition cv_sample : OpenCV := {|
  cvt_bgr2gray := map (map gray_px);
  decode_gray_of_color := map (map gray_px);
  gaussian_blur := fun g _ _ => g;
  canny := fun g _ hi => map (map (fun v => if Z.leb hi v then 255%Z else 0%Z)) g
|}.

(** A one-pixel frame 0000 with its AO map. *)
Definition fs_frame0 : FS :=
  <["renders/render_0000.png" := PngColor [[(10, 200, 30)]]%Z]>
  (<["ao/ao_0000.png" := PngGray [[100]]%Z]> ∅).

(** A 1 x 2 beauty render with a 1 x 3 AO map. *)
Definition fs_ao_mismatch : FS :=
  <["renders/render_0000.png" := PngColor [[(10, 200, 30); (10, 200, 30)]]%Z]>
  (<["ao/ao_0000.png" := PngGray [[100; 100; 100]]%Z]> ∅).

(** A 1 x 1 beauty render with a 1 x 2 AO map. *)
Definition fs_ao_wide : FS :=
  <["renders/render_0000.png" := PngColor [[(10, 200, 30)]]%Z]>
  (<["ao/ao_0000.png" := PngGray [[100; 100]]%Z]> ∅).

(** Frame 0000 with no AO map, and with an undecodable beauty render. *)
Definition fs_no_ao : FS :=
  <["renders/render_0000.png" := PngColor [[(10, 200, 30)]]%Z]> ∅.
Definition fs_bad_render : FS :=
  <["renders/render_0000.png" := RawBytes "truncated"]>
  (<["renders/render_0001.png" := PngColor [[(10, 200, 30)]]%Z]> ∅).

(** Pixel [(i, j)] of an image. *)
Definition px {A} (g : list (list A)) (i j : nat) : option A :=
  g !! i ≫= (fun row => row !! j).

(** A renderer returning a 1 x 1 buffer with the seven channels the AOV
    integrator asks for (RGBA, then the albedo AOV), one returning only
    RGBA, and a mesh bounding box. *)
Definition mi_sample : Mitsuba := {|
  mi_bbox := fun _ => ([0; 0; 0], [1; 2; 1])%Q;
  mi_render := fun _ => mk_buffer 7 [[[1 # 2; 1 # 4; 1; 1; 1 # 3; 2 # 3; 1]]]%Q
|}.
Definition mi_sample_rgba : Mitsuba := {|
  mi_bbox := fun _ => ([0; 0; 0], [1; 2; 1])%Q;
  mi_render := fun _ => mk_buffer 4 [[[1 # 2; 1 # 4; 1; 1]]]%Q
|}.

(** A random stream cycling through 0, 0.1, ..., 0.9. *)
Definition rnd_sample : PyRandom := {|
  py_random := fun k => Z.of_nat (k mod 10) # 10;
  py_randbelow := fun n k => k mod n
|}.

Definition sample_meshes : list string := ["cloth_meshes/scarf.obj"].


(** A frame as the generator leaves it: a colour render and a uint8 AO
    map of the same size. *)
Definition frame_wf (m : FS) (i : nat) : Prop :=
  exists c a, m !! render_path_of (Fmt.format_04d i) = Some (PngColor c) /\
              m !! ao_path_of (Fmt.format_04d i) = Some (PngGray a) /\
              same_shape a c = true /\ all_u8 a.

(** Frame [i] has a uint8 grayscale conditioning image. *)
Definition cond_u8 (m : FS) (i : nat) : Prop :=
  exists img, m !! conditioning_path_of (Fmt.format_04d i) = Some (PngGray img) /\ all_u8 img.

(** Metadata record [r] names the files of frame [i]. *)
Definition frame_paths_ok (i : nat) (r : Gen.MetaRecord) : Prop :=
  Gen.file_name r = render_path_of (Fmt.format_04d i) /\
  Gen.conditioning_image r = conditioning_path_of (Fmt.format_04d i) /\
  Gen.ao_image r = ao_path_of (Fmt.format_04d i).

(* ================================================================== *)
(** * Properties *)

(** ** Shapes *)

Lemma same_shape_sym {A B} (a : list (list A)) (b : list (list B)) :
  same_shape a b = same_shape b a.
Proof.
  revert b; induction a as [|r a IH]; intros [|s b]; simpl; auto.
  rewrite Nat.eqb_sym, IH; reflexivity.
Qed.

Lemma same_shape_trans {A B C} (a : list (list A)) (b : list (list B))
  (c : list (list C)) :
  same_shape a b = true -> same_shape b c = true -> same_shape a c = true.
Proof.
  revert b c; induction a as [|r a IH]; intros [|s b] [|t c]; simpl; auto;
    try discriminate.
  rewrite !andb_true_iff, !Nat.eqb_eq; intros [-> H1] [-> H2]; eauto.
Qed.

Lemma same_shape_map {A B} (f : A -> B) (a : list (list A)) :
  same_shape (map (map f) a) a = true.
Proof.
  induction a as [|r a IH]; simpl; auto.
  rewrite length_map, Nat.eqb_refl; exact IH.
Qed.

Lemma px_map {A B} (f : A -> B) (g : list (list A)) i j :
  px (map (map f) g) i j = f <$> px g i j.
Proof.
  unfold px. rewrite list_lookup_fmap.
  destruct (g !! i) as [row|]; simpl; [|reflexivity].
  apply list_lookup_fmap.
Qed.

Lemma px_zip_with {A B C} (f : A -> B -> C) a b i j :
  px (zip_with (zip_with f) a b) i j =
  x ← px a i j; y ← px b i j; Some (f x y).
Proof.
  unfold px. rewrite lookup_zip_with.
  destruct (a !! i) as [r|]; simpl; [|reflexivity].
  destruct (b !! i) as [s|]; simpl.
  - rewrite lookup_zip_with. reflexivity.
  - destruct (r !! j); reflexivity.
Qed.

Lemma max_zeros_like (g : gimg) :
  all_u8 g -> zip_with (zip_with Z.max) g (zeros_like g) = g.
Proof.
  unfold all_u8, zeros_like.
  induction 1 as [|r g Hr _ IH]; simpl; [reflexivity|].
  rewrite IH; f_equal.
  induction Hr as [|v r Hv _ IHr]; simpl; [reflexivity|].
  rewrite IHr; f_equal; lia.
Qed.

Lemma canny_edges_shape cv b :
  cv_valid cv -> same_shape (Sketch.canny_edges_of cv b) b = true.
Proof.
  intros (Hg & Hb & Hc & _). unfold Sketch.canny_edges_of.
  eapply same_shape_trans; [apply Hc|].
  eapply same_shape_trans; [apply Hb|]. apply Hg.
Qed.

Lemma ao_shading_shape a : same_shape (Sketch.ao_shading_of a) a = true.
Proof.
  unfold Sketch.ao_shading_of, bitwise_not.
  eapply same_shape_trans; apply same_shape_map.
Qed.

Lemma same_shape_refl {A} (a : list (list A)) : same_shape a a = true.
Proof.
  induction a as [|r a IH]; simpl; auto. rewrite Nat.eqb_refl; exact IH.
Qed.

Lemma all_u8_map (f : Z -> Z) (g : gimg) :
  (forall z, 0 <= f z <= 255)%Z -> all_u8 (map (map f) g).
Proof.
  intros Hf. unfold all_u8.
  induction g as [|r g IH]; simpl; constructor; auto.
  induction r; simpl; constructor; auto.
Qed.

Lemma cv_sample_valid : cv_valid cv_sample.
Proof.
  repeat split; intros; simpl; try apply same_shape_map; try apply same_shape_refl.
  apply all_u8_map. intros z. destruct (Z.leb _ z); lia.
Qed.

Lemma same_shape_px {A B} (a : list (list A)) (b : list (list B)) i j :
  same_shape a b = true -> is_Some (px a i j) -> is_Some (px b i j).
Proof.
  unfold px. revert b i; induction a as [|r a IH]; intros [|s b] i; simpl;
    try discriminate.
  - intros _ [? H]. discriminate.
  - rewrite andb_true_iff, Nat.eqb_eq. intros [Hl Hs].
    destruct i as [|i]; simpl; [|apply IH; exact Hs].
    intros [x Hx]. apply lookup_lt_is_Some_2. rewrite <- Hl.
    apply lookup_lt_is_Some_1. eauto.
Qed.

(** The frame step when both images load: it writes [cv2.max] of the two
    layers, provided the layers have the same size. *)
Lemma frame_step_both_loaded cv st basename b a :
  imread_color (Sketch.fs st) (Sketch.render_path_in basename) = Some b ->
  imread_grayscale cv (Sketch.fs st) (ao_path_of (Sketch.frame_str_of basename)) = Some a ->
  Sketch.frame_step cv st basename =
  match cv_max (Sketch.canny_edges_of cv b) (Sketch.ao_shading_of a) with
  | None => None
  | Some sk =>
      Some (Sketch.mk_state
              (<[conditioning_path_of (Sketch.frame_str_of basename) := PngGray sk]> (Sketch.fs st))
              (S (Sketch.processed st)) (Sketch.skipped st)
              (Sketch.log st ++ [Sketch.Saved (Sketch.frame_str_of basename)
                                   (conditioning_path_of (Sketch.frame_str_of basename))])%list)
  end.
Proof. intros Hb Ha. unfold Sketch.frame_step. rewrite Hb, Ha. reflexivity. Qed.

(** Images of the same size are both 1 x 1 or both not. *)
Lemma px1_shape {A B} (g : list (list A)) (h : list (list B)) :
  same_shape g h = true -> (is_Some (px1 g) <-> is_Some (px1 h)).
Proof.
  destruct g as [|r [|r2 g]], h as [|s [|s2 h]]; cbn; intros H; try discriminate;
    try (split; intros [? E]; discriminate).
  all: destruct r as [|x [|x2 r]], s as [|y [|y2 s]]; cbn in *;
    rewrite ?andb_false_r in H; try discriminate;
    split; intros [? E]; try discriminate; eauto.
Qed.

Lemma px1_none {A B} (g : list (list A)) (h : list (list B)) :
  same_shape g h = true -> px1 h = None -> px1 g = None.
Proof.
  intros Hs Hh. destruct (px1 g) eqn:E; [|reflexivity].
  destruct (proj1 (px1_shape g h Hs) (ex_intro _ _ E)) as [? E']. congruence.
Qed.

(** With a valid OpenCV, an AO map whose size differs from the beauty
    render's makes [cv2.max] raise, unless one of the two is 1 x 1. *)
Lemma frame_step_shape_mismatch cv st basename b a :
  cv_valid cv ->
  imread_color (Sketch.fs st) (Sketch.render_path_in basename) = Some b ->
  imread_grayscale cv (Sketch.fs st) (ao_path_of (Sketch.frame_str_of basename)) = Some a ->
  same_shape a b = false -> px1 a = None -> px1 b = None ->
  Sketch.frame_step cv st basename = None.
Proof.
  intros Hcv Hb Ha Hab Ha1 Hb1. rewrite (frame_step_both_loaded _ _ _ _ _ Hb Ha).
  unfold cv_max.
  destruct (same_shape (Sketch.canny_edges_of cv b) (Sketch.ao_shading_of a)) eqn:E.
  - exfalso. assert (same_shape a b = true); [|congruence].
    apply (same_shape_trans _ (Sketch.ao_shading_of a));
      [rewrite same_shape_sym; apply ao_shading_shape|].
    apply (same_shape_trans _ (Sketch.canny_edges_of cv b));
      [rewrite same_shape_sym; exact E|apply canny_edges_shape, Hcv].
  - rewrite (px1_none _ _ (canny_edges_shape cv b Hcv) Hb1).
    rewrite (px1_none _ _ (ao_shading_shape a) Ha1). reflexivity.
Qed.

(** With a valid OpenCV, a 1 x 1 render or AO map never makes [cv2.max]
    raise: the frame's conditioning image is written. *)
Lemma frame_step_px1 cv st basename b a :
  cv_valid cv ->
  imread_color (Sketch.fs st) (Sketch.render_path_in basename) = Some b ->
  imread_grayscale cv (Sketch.fs st) (ao_path_of (Sketch.frame_str_of basename)) = Some a ->
  is_Some (px1 a) \/ is_Some (px1 b) ->
  exists st' sk,
    Sketch.frame_step cv st basename = Some st' /\
    Sketch.fs st' !! conditioning_path_of (Sketch.frame_str_of basename) = Some (PngGray sk).
Proof.
  intros Hcv Hb Ha H1. rewrite (frame_step_both_loaded _ _ _ _ _ Hb Ha).
  assert (Hm : exists sk, cv_max (Sketch.canny_edges_of cv b) (Sketch.ao_shading_of a) = Some sk).
  { unfold cv_max. destruct (same_shape _ _); [eauto|].
    destruct H1 as [Ha1|Hb1].
    - apply (px1_shape _ _ (ao_shading_shape a)) in Ha1 as [y Hy].
      destruct (px1 (Sketch.canny_edges_of cv b)); [eauto|]. rewrite Hy. eauto.
    - apply (px1_shape _ _ (canny_edges_shape cv b Hcv)) in Hb1 as [x Hx].
      rewrite Hx. eauto. }
  destruct Hm as [sk Hm]. rewrite Hm. eexists _, _. split; [reflexivity|].
  apply lookup_insert_eq.
Qed.

(** ** The sketch stage *)

(** C1 (as amended): when the beauty render and the AO map of a frame both
    load and have the same size, the frame step writes the conditioning
    image whose every pixel is the maximum of the Canny edge pixel (of the
    5x5-blurred grayscale render, thresholds 50 and 150) and the inverted
    AO pixel scaled by 0.6 and truncated; so no output pixel is below its
    edge pixel.  When they differ in size and neither is 1 x 1, [cv2.max]
    raises and nothing is written; when one of them is 1 x 1, the
    conditioning image is still written. *)
Theorem sketch_blend_pixels (cv : OpenCV) (st : Sketch.state) (basename : string)
  (b : cimg) (a : gimg) :
  cv_valid cv ->
  imread_color (Sketch.fs st) (Sketch.render_path_in basename) = Some b ->
  imread_grayscale cv (Sketch.fs st) (ao_path_of (Sketch.frame_str_of basename)) = Some a ->
  (same_shape a b = true ->
  exists st' sk,
    Sketch.frame_step cv st basename = Some st' /\
    Sketch.fs st' !! conditioning_path_of (Sketch.frame_str_of basename) = Some (PngGray sk) /\
    same_shape sk b = true /\
    (forall i j e x,
       px (Sketch.canny_edges_of cv b) i j = Some e -> px a i j = Some x ->
       px sk i j = Some (Z.max e (Qfloor (inject_Z (Z.lxor x 255) * Sketch.AO_WEIGHT)))) /\
    (forall i j e,
       px (Sketch.canny_edges_of cv b) i j = Some e ->
       exists v, px sk i j = Some v /\ (e <= v)%Z)) /\
  (same_shape a b = false -> px1 a = None -> px1 b = None ->
   Sketch.frame_step cv st basename = None) /\
  (is_Some (px1 a) \/ is_Some (px1 b) ->
   exists st' sk,
     Sketch.frame_step cv st basename = Some st' /\
     Sketch.fs st' !! conditioning_path_of (Sketch.frame_str_of basename) = Some (PngGray sk)).
Proof.
  intros Hcv Hb Ha. split; [|split].
  2:{ intros. eapply frame_step_shape_mismatch; eassumption. }
  2:{ intros. eapply frame_step_px1; eassumption. }
  intros Hab.
  pose proof (canny_edges_shape cv b Hcv) as He.
  assert (Hes : same_shape (Sketch.canny_edges_of cv b) (Sketch.ao_shading_of a) = true).
  { eapply same_shape_trans; [exact He|].
    rewrite same_shape_sym. eapply same_shape_trans; [apply ao_shading_shape|exact Hab]. }
  rewrite (frame_step_both_loaded _ _ _ _ _ Hb Ha). unfold cv_max. rewrite Hes.
  eexists _, _. split; [reflexivity|]. split; [simpl; apply lookup_insert_eq|].
  split; [|split].
  - eapply same_shape_trans; [|exact He].
    clear -Hes. revert Hes.
    generalize (Sketch.canny_edges_of cv b) as l, (Sketch.ao_shading_of a) as l'.
    induction l as [|r l IH]; intros [|s l'] H; simpl in *; try discriminate; auto.
    apply andb_true_iff in H as [H1 H2]. apply Nat.eqb_eq in H1.
    rewrite length_zip_with, H1, Nat.min_id, Nat.eqb_refl. simpl; auto.
  - intros i j e x Hpe Hpa. rewrite px_zip_with, Hpe. simpl.
    unfold Sketch.ao_shading_of, bitwise_not. rewrite !px_map, Hpa. reflexivity.
  - intros i j e Hpe.
    destruct (same_shape_px _ _ i j Hes) as [y Hy]; [eauto|].
    exists (Z.max e y). rewrite px_zip_with, Hpe, Hy. split; [reflexivity|lia].
Qed.

(** C6: when the beauty render loads but the AO map does not, the frame
    step logs a warning, writes the Canny edge map itself as the
    conditioning image, and counts the frame as processed. *)
Theorem sketch_no_ao_edges_only (cv : OpenCV) (st : Sketch.state) (basename : string)
  (b : cimg) :
  cv_valid cv ->
  imread_color (Sketch.fs st) (Sketch.render_path_in basename) = Some b ->
  imread_grayscale cv (Sketch.fs st) (ao_path_of (Sketch.frame_str_of basename)) = None ->
  exists st',
    Sketch.frame_step cv st basename = Some st' /\
    Sketch.fs st' =
      <[conditioning_path_of (Sketch.frame_str_of basename) :=
          PngGray (Sketch.canny_edges_of cv b)]> (Sketch.fs st) /\
    Sketch.processed st' = S (Sketch.processed st) /\
    Sketch.skipped st' = Sketch.skipped st /\
    In (Sketch.WarnNoAO (ao_path_of (Sketch.frame_str_of basename))) (Sketch.log st').
Proof.
  intros Hcv Hb Ha. pose proof Hcv as (_ & _ & _ & Hu).
  unfold Sketch.frame_step. rewrite Hb, Ha. cbv zeta.
  unfold cv_max. rewrite same_shape_sym. unfold zeros_like at 1.
  rewrite same_shape_map.
  eexists. split; [reflexivity|]. simpl.
  unfold Sketch.canny_edges_of. rewrite max_zeros_like by apply Hu.
  repeat split; auto.
  apply in_or_app. left. apply in_or_app. right. left. reflexivity.
Qed.

(** C7: a beauty render that cannot be loaded adds exactly one to the skip
    counter, leaves the filesystem (so every conditioning image) as it was,
    and the loop goes on with the remaining files. *)
Theorem sketch_bad_render_skipped (cv : OpenCV) (st : Sketch.state) (basename : string)
  (rest : list string) :
  imread_color (Sketch.fs st) (Sketch.render_path_in basename) = None ->
  let st' := Sketch.mk_state (Sketch.fs st) (Sketch.processed st) (S (Sketch.skipped st))
               (Sketch.log st ++ [Sketch.ErrorBeauty (Sketch.render_path_in basename)])%list in
  Sketch.frame_step cv st basename = Some st' /\
  Sketch.loop cv st (basename :: rest) = Sketch.loop cv st' rest.
Proof.
  intros Hb st'. unfold Sketch.frame_step. rewrite Hb.
  split; [reflexivity|]. simpl. unfold Sketch.frame_step. rewrite Hb. reflexivity.
Qed.

(** Each frame step that does not raise either saves one conditioning
    image and counts it as processed, or writes nothing and counts a skip. *)
Lemma frame_step_one_outcome cv st b st' :
  Sketch.frame_step cv st b = Some st' ->
  (Sketch.processed st' = S (Sketch.processed st) /\
   Sketch.skipped st' = Sketch.skipped st /\
   exists img, Sketch.fs st' =
     <[conditioning_path_of (Sketch.frame_str_of b) := PngGray img]> (Sketch.fs st)) \/
  (Sketch.processed st' = Sketch.processed st /\
   Sketch.skipped st' = S (Sketch.skipped st) /\
   Sketch.fs st' = Sketch.fs st).
Proof.
  unfold Sketch.frame_step.
  destruct (imread_color _ _) as [bb|].
  - cbv zeta. destruct (cv_max _ _) as [sk|]; [|discriminate].
    intros [= <-]. left. simpl. eauto.
  - intros [= <-]. right. simpl. auto.
Qed.

Lemma loop_finished_counts cv files st st' :
  Sketch.loop cv st files = Sketch.Finished st' ->
  Sketch.processed st' + Sketch.skipped st' =
  Sketch.processed st + Sketch.skipped st + length files.
Proof.
  revert st; induction files as [|b files IH]; intros st; simpl.
  - intros [= <-]. lia.
  - destruct (Sketch.frame_step cv st b) as [st1|] eqn:E; [|discriminate].
    intros H. rewrite (IH _ H).
    destruct (frame_step_one_outcome _ _ _ _ E) as [(-> & -> & _)|(-> & -> & _)]; lia.
Qed.

(** C9: when the processing loop finishes, processed + skipped is the
    number of enumerated render files, each step contributing exactly one
    of a saved conditioning image or a skip. *)
Theorem sketch_counts_total (cv : OpenCV) (fs0 : FS) (files : list string)
  (st : Sketch.state) :
  Sketch.run cv fs0 files = Sketch.Ran (Sketch.Finished st) ->
  Sketch.processed st + Sketch.skipped st = length files /\
  (forall st0 b st1, Sketch.frame_step cv st0 b = Some st1 ->
     (Sketch.processed st1 = S (Sketch.processed st0) /\
      Sketch.skipped st1 = Sketch.skipped st0 /\
      exists img, Sketch.fs st1 =
        <[conditioning_path_of (Sketch.frame_str_of b) := PngGray img]> (Sketch.fs st0)) \/
     (Sketch.processed st1 = Sketch.processed st0 /\
      Sketch.skipped st1 = S (Sketch.skipped st0) /\
      Sketch.fs st1 = Sketch.fs st0)).
Proof.
  unfold Sketch.run. intros H. split; [|apply frame_step_one_outcome].
  destruct files as [|f files]; [discriminate|].
  injection H as H.
  apply (loop_finished_counts cv (f :: files)) in H. simpl in *. lia.
Qed.

(** ** Evaluations at concrete frames *)

(** C1 fails as stated: both images of frame 0000 load, but the render is
    1 x 2 and the AO map 1 x 3, neither a scalar for [cv2.max], so it
    raises and no conditioning image is written. *)
Lemma sketch_ao_mismatch_no_output :
  imread_color fs_ao_mismatch (Sketch.render_path_in "render_0000.png")
    = Some [[(10, 200, 30); (10, 200, 30)]]%Z /\
  imread_grayscale cv_sample fs_ao_mismatch
    (ao_path_of (Sketch.frame_str_of "render_0000.png")) = Some [[100; 100; 100]]%Z /\
  Sketch.run cv_sample fs_ao_mismatch ["render_0000.png"]
    = Sketch.Ran (Sketch.Raised (Sketch.mk_state fs_ao_mismatch 0 0 [])) /\
  fs_ao_mismatch !! conditioning_path_of (Sketch.frame_str_of "render_0000.png") = None.
Proof. repeat split; vm_compute; reflexivity. Qed.

(** A 1 x 1 render against a 1 x 2 AO map: [cv2.max] takes the 1 x 1 edge
    map as a scalar, and the run writes the 1 x 2 image [[93, 93]]. *)
Lemma sketch_px1_broadcast :
  exists st,
    Sketch.run cv_sample fs_ao_wide ["render_0000.png"] = Sketch.Ran (Sketch.Finished st) /\
    Sketch.fs st !! "conditioning/conditioning_0000.png" = Some (PngGray [[93; 93]]%Z).
Proof. eexists. split; vm_compute; reflexivity. Qed.

Lemma sketch_blend_pixels_witness :
  cv_valid cv_sample /\
  imread_color fs_frame0 (Sketch.render_path_in "render_0000.png")
    = Some [[(10, 200, 30)]]%Z /\
  imread_grayscale cv_sample fs_frame0
    (ao_path_of (Sketch.frame_str_of "render_0000.png")) = Some [[100]]%Z /\
  same_shape [[100]]%Z [[(10, 200, 30)]]%Z = true /\
  exists st' sk,
    Sketch.frame_step cv_sample (Sketch.mk_state fs_frame0 0 0 []) "render_0000.png" = Some st' /\
    Sketch.fs st' !! "conditioning/conditioning_0000.png" = Some (PngGray sk).
Proof.
  assert (Hb : imread_color fs_frame0 (Sketch.render_path_in "render_0000.png")
                 = Some [[(10, 200, 30)]]%Z) by (vm_compute; reflexivity).
  assert (Ha : imread_grayscale cv_sample fs_frame0
                 (ao_path_of (Sketch.frame_str_of "render_0000.png")) = Some [[100]]%Z)
    by (vm_compute; reflexivity).
  split; [exact cv_sample_valid|]. split; [exact Hb|]. split; [exact Ha|].
  split; [reflexivity|].
  destruct (proj1 (sketch_blend_pixels cv_sample (Sketch.mk_state fs_frame0 0 0 [])
              "render_0000.png" _ _ cv_sample_valid Hb Ha) eq_refl)
    as (st' & sk & H1 & H2 & _).
  exists st', sk. split; [exact H1|exact H2].
Defined.

Lemma sketch_no_ao_edges_only_witness :
  cv_valid cv_sample /\
  imread_color fs_no_ao (Sketch.render_path_in "render_0000.png")
    = Some [[(10, 200, 30)]]%Z /\
  imread_grayscale cv_sample fs_no_ao
    (ao_path_of (Sketch.frame_str_of "render_0000.png")) = None /\
  exists st',
    Sketch.frame_step cv_sample (Sketch.mk_state fs_no_ao 0 0 []) "render_0000.png" = Some st' /\
    Sketch.processed st' = 1.
Proof.
  assert (Hb : imread_color fs_no_ao (Sketch.render_path_in "render_0000.png")
                 = Some [[(10, 200, 30)]]%Z) by (vm_compute; reflexivity).
  assert (Ha : imread_grayscale cv_sample fs_no_ao
                 (ao_path_of (Sketch.frame_str_of "render_0000.png")) = None)
    by (vm_compute; reflexivity).
  split; [exact cv_sample_valid|]. split; [exact Hb|]. split; [exact Ha|].
  destruct (sketch_no_ao_edges_only cv_sample (Sketch.mk_state fs_no_ao 0 0 [])
              "render_0000.png" _ cv_sample_valid Hb Ha)
    as (st' & H1 & _ & H3 & _).
  exists st'. split; [exact H1|exact H3].
Defined.

Lemma sketch_bad_render_skipped_witness :
  imread_color fs_bad_render (Sketch.render_path_in "render_0000.png") = None /\
  Sketch.loop cv_sample (Sketch.mk_state fs_bad_render 0 0 [])
    ["render_0000.png"; "render_0001.png"] =
  Sketch.loop cv_sample
    (Sketch.mk_state fs_bad_render 0 1 [Sketch.ErrorBeauty "renders/render_0000.png"])
    ["render_0001.png"].
Proof.
  assert (Hb : imread_color fs_bad_render (Sketch.render_path_in "render_0000.png") = None)
    by (vm_compute; reflexivity).
  split; [exact Hb|].
  exact (proj2 (sketch_bad_render_skipped cv_sample (Sketch.mk_state fs_bad_render 0 0 [])
                  "render_0000.png" ["render_0001.png"] Hb)).
Defined.

Lemma sketch_counts_total_witness :
  exists st,
    Sketch.run cv_sample fs_bad_render ["render_0000.png"; "render_0001.png"]
      = Sketch.Ran (Sketch.Finished st) /\
    Sketch.processed st = 1 /\ Sketch.skipped st = 1 /\
    Sketch.processed st + Sketch.skipped st = 2.
Proof.
  eexists. split; [vm_compute; reflexivity|].
  split; [reflexivity|]. split; [reflexivity|].
  apply (sketch_counts_total cv_sample fs_bad_render ["render_0000.png"; "render_0001.png"]).
  vm_compute. reflexivity.
Defined.

(** ** Strings and paths *)

(** stdpp declares [String.app] [simpl never]; its two equations. *)
Lemma str_app_nil_l (b : string) : EmptyString ++ b = b.
Proof. reflexivity. Qed.

Lemma str_app_cons (x : ascii) (a b : string) : String x a ++ b = String x (a ++ b).
Proof. reflexivity. Qed.

Lemma str_app_assoc (a b c : string) : (a ++ b) ++ c = a ++ (b ++ c).
Proof. induction a as [|x a IH]; [reflexivity|rewrite !str_app_cons, IH; reflexivity]. Qed.

Lemma str_app_nil_r (a : string) : a ++ EmptyString = a.
Proof. induction a as [|x a IH]; [reflexivity|rewrite str_app_cons, IH; reflexivity]. Qed.

Lemma str_length_app (a b : string) :
  String.length (a ++ b) = String.length a + String.length b.
Proof. induction a as [|x a IH]; [reflexivity|rewrite str_app_cons; simpl; rewrite IH; reflexivity]. Qed.

Lemma str_app_inv_tail (a b t : string) : a ++ t = b ++ t -> a = b.
Proof.
  revert b; induction a as [|x a IH]; intros [|y b] H;
    rewrite ?str_app_cons, ?str_app_nil_l in H; auto.
  - apply (f_equal String.length) in H. simpl in H.
    rewrite str_length_app in H. lia.
  - apply (f_equal String.length) in H. simpl in H.
    rewrite str_length_app in H. lia.
  - injection H as -> H. f_equal. auto.
Qed.

Lemma render_path_of_inj x y : render_path_of x = render_path_of y -> x = y.
Proof.
  unfold render_path_of; simpl. intros H. repeat (injection H as H).
  eapply str_app_inv_tail; exact H.
Qed.

Lemma ao_path_of_inj x y : ao_path_of x = ao_path_of y -> x = y.
Proof.
  unfold ao_path_of; simpl. intros H. repeat (injection H as H).
  eapply str_app_inv_tail; exact H.
Qed.

Lemma render_ao_path_neq x y : render_path_of x <> ao_path_of y.
Proof. unfold render_path_of, ao_path_of; simpl; discriminate. Qed.

Lemma metadata_render_neq x : metadata_path <> render_path_of x.
Proof. unfold render_path_of, metadata_path; simpl; discriminate. Qed.

Lemma metadata_ao_neq x : metadata_path <> ao_path_of x.
Proof. unfold ao_path_of, metadata_path; simpl; discriminate. Qed.

Lemma conditioning_render_neq x y : conditioning_path_of x <> render_path_of y.
Proof. unfold render_path_of, conditioning_path_of; simpl; discriminate. Qed.

Lemma conditioning_ao_neq x y : conditioning_path_of x <> ao_path_of y.
Proof. unfold ao_path_of, conditioning_path_of; simpl; discriminate. Qed.

Lemma conditioning_metadata_neq x : conditioning_path_of x <> metadata_path.
Proof. unfold metadata_path, conditioning_path_of; simpl; discriminate. Qed.

(** ** [f"{i:04d}"] is injective: reading the digits back gives [i]. *)

Module FmtFacts.
Import Fmt.

Definition horner (a d : nat) : nat := a * 10 + d.

Lemma digits_aux_value fuel n acc :
  n <= fuel -> fold_left horner (digits_aux fuel n acc) 0 = fold_left horner acc n.
Proof.
  revert n acc; induction fuel as [|f IH]; intros n acc Hn; cbn [digits_aux].
  - assert (n = 0) as -> by lia. reflexivity.
  - destruct (Nat.ltb_spec n 10) as [Hlt|Hge]; [reflexivity|].
    rewrite IH.
    + cbn [fold_left]. f_equal. unfold horner.
      pose proof (Nat.div_mod_eq n 10). lia.
    + assert (n / 10 < n) by (apply Nat.div_lt; lia). lia.
Qed.

Lemma digits_aux_small fuel n acc :
  Forall (fun d => d < 10) acc -> n <= fuel ->
  Forall (fun d => d < 10) (digits_aux fuel n acc).
Proof.
  revert n acc; induction fuel as [|f IH]; intros n acc Hacc Hn; cbn [digits_aux].
  - constructor; [lia|exact Hacc].
  - destruct (Nat.ltb_spec n 10); [constructor; auto|].
    apply IH.
    + constructor; [apply Nat.mod_upper_bound; lia|exact Hacc].
    + assert (n / 10 < n) by (apply Nat.div_lt; lia). lia.
Qed.

Lemma digits_small n : Forall (fun d => d < 10) (digits n).
Proof. apply digits_aux_small; [constructor|lia]. Qed.

Lemma parse_string_of_digits a ds :
  Forall (fun d => d < 10) ds ->
  parse_dec_acc a (string_of_digits ds) = fold_left horner ds a.
Proof.
  intros H; revert a; induction H as [|d ds Hd _ IH]; intros a;
    cbn [string_of_digits parse_dec_acc fold_left]; [reflexivity|].
  rewrite IH. unfold digit_char. rewrite nat_ascii_embedding by lia.
  unfold horner. f_equal. f_equal. lia.
Qed.

Lemma fold_horner_zeros k : fold_left horner (repeat 0 k) 0 = 0.
Proof. induction k as [|k IH]; simpl; auto. Qed.

Lemma parse_format_04d n : parse_dec (format_04d n) = n.
Proof.
  unfold parse_dec, format_04d. rewrite parse_string_of_digits.
  - rewrite fold_left_app, fold_horner_zeros. unfold digits.
    rewrite digits_aux_value by lia. reflexivity.
  - apply Forall_app; split; [|apply digits_small].
    generalize (4 - length (digits n)) as k.
    induction k as [|k IH]; simpl; constructor; auto. lia.
Qed.

End FmtFacts.

Lemma format_04d_inj i j : Fmt.format_04d i = Fmt.format_04d j -> i = j.
Proof.
  intros H. rewrite <- (FmtFacts.parse_format_04d i), <- (FmtFacts.parse_format_04d j).
  congruence.
Qed.

(** ** The generator's frame step *)

Section GenFacts.
Context (mi : Mitsuba) (rnd : PyRandom) (mesh_files : list string).

Local Abbreviation step := (Gen.frame_step mi rnd mesh_files).
Local Abbreviation gloop := (Gen.loop mi rnd mesh_files).

Lemma gen_step_skip st i :
  Gen.complete (Gen.fs st) i = true ->
  step st i = Gen.mk_state (Gen.fs st) (Gen.rng st) (Gen.records st)
                           (Gen.log st ++ [Gen.Skipping i])%list.
Proof. intros H. unfold Gen.frame_step. rewrite H. reflexivity. Qed.

Lemma gen_step_new st i :
  Gen.complete (Gen.fs st) i = false ->
  let frame_str := Fmt.format_04d i in
  let d := Gen.draw_frame mi rnd mesh_files (Gen.rng st) in
  let buf := mi_render mi d.1.1.1 in
  step st i =
  Gen.mk_state
    (<[ao_path_of frame_str := PngGray (Gen.ao_of buf)]>
       (<[render_path_of frame_str := PngColor (Gen.beauty_of buf)]> (Gen.fs st)))
    d.2
    (Gen.records st ++ [Gen.mk_record (render_path_of frame_str)
                          (conditioning_path_of frame_str) (ao_path_of frame_str) d.1.1.2])%list
    (Gen.log st ++ (if Nat.leb 7 (channels buf) then [] else [Gen.WarnNoAOV frame_str]) ++
       [Gen.SavedFrame i d.1.2])%list.
Proof.
  intros H. unfold Gen.frame_step. rewrite H. cbv zeta.
  destruct (Gen.draw_frame mi rnd mesh_files (Gen.rng st)) as [[[sc pr] de] k'].
  reflexivity.
Qed.

Lemma complete_ext (m m' : FS) j :
  m' !! render_path_of (Fmt.format_04d j) = m !! render_path_of (Fmt.format_04d j) ->
  m' !! ao_path_of (Fmt.format_04d j) = m !! ao_path_of (Fmt.format_04d j) ->
  Gen.complete m' j = Gen.complete m j.
Proof. intros H1 H2. unfold Gen.complete, Gen.path_exists. rewrite H1, H2. reflexivity. Qed.

(** A step leaves the two files of a complete frame as they are: it either
    skips, or writes the files of another frame, whose paths differ (equal
    paths would make that frame complete too). *)
Lemma gen_step_keeps_complete st i j :
  Gen.complete (Gen.fs st) j = true ->
  Gen.fs (step st i) !! render_path_of (Fmt.format_04d j) =
    Gen.fs st !! render_path_of (Fmt.format_04d j) /\
  Gen.fs (step st i) !! ao_path_of (Fmt.format_04d j) =
    Gen.fs st !! ao_path_of (Fmt.format_04d j).
Proof.
  intros Hj. destruct (Gen.complete (Gen.fs st) i) eqn:Hi.
  - rewrite gen_step_skip by exact Hi. auto.
  - rewrite gen_step_new by exact Hi. simpl.
    assert (Hne : Fmt.format_04d i <> Fmt.format_04d j).
    { intros E. assert (Gen.complete (Gen.fs st) i = Gen.complete (Gen.fs st) j)
        by (unfold Gen.complete; rewrite E; reflexivity). congruence. }
    split.
    + rewrite lookup_insert_ne by (apply not_eq_sym, render_ao_path_neq).
      rewrite lookup_insert_ne; [reflexivity|].
      intros E. apply Hne. apply render_path_of_inj, E.
    + rewrite lookup_insert_ne.
      * rewrite lookup_insert_ne by apply render_ao_path_neq. reflexivity.
      * intros E. apply Hne. apply ao_path_of_inj, E.
Qed.

Lemma gen_loop_keeps_complete idx st j :
  Gen.complete (Gen.fs st) j = true ->
  Gen.fs (gloop st idx) !! render_path_of (Fmt.format_04d j) =
    Gen.fs st !! render_path_of (Fmt.format_04d j) /\
  Gen.fs (gloop st idx) !! ao_path_of (Fmt.format_04d j) =
    Gen.fs st !! ao_path_of (Fmt.format_04d j).
Proof.
  revert st; induction idx as [|i idx IH]; intros st Hj; simpl; [auto|].
  destruct (gen_step_keeps_complete st i j Hj) as [H1 H2].
  assert (Hj' : Gen.complete (Gen.fs (step st i)) j = true)
    by (rewrite (complete_ext _ _ _ H1 H2); exact Hj).
  destruct (IH _ Hj') as [H3 H4]. unfold Gen.loop in *. rewrite H3, H4. auto.
Qed.

(** Files are only ever added or replaced, never removed. *)
Lemma gen_step_exists st i p :
  Gen.path_exists (Gen.fs st) p = true -> Gen.path_exists (Gen.fs (step st i)) p = true.
Proof.
  unfold Gen.path_exists. destruct (Gen.complete (Gen.fs st) i) eqn:Hi.
  - rewrite gen_step_skip by exact Hi. auto.
  - rewrite gen_step_new by exact Hi. simpl.
    destruct (Gen.fs st !! p) eqn:E; [|discriminate]. intros _.
    rewrite !lookup_insert. repeat case_decide; auto. rewrite E. reflexivity.
Qed.

Lemma gen_loop_exists idx st p :
  Gen.path_exists (Gen.fs st) p = true -> Gen.path_exists (Gen.fs (gloop st idx)) p = true.
Proof.
  revert st; induction idx as [|i idx IH]; intros st H; simpl; auto.
  apply IH, gen_step_exists, H.
Qed.

Lemma gen_step_completes st i : Gen.complete (Gen.fs (step st i)) i = true.
Proof.
  destruct (Gen.complete (Gen.fs st) i) eqn:Hi.
  - rewrite gen_step_skip by exact Hi. exact Hi.
  - rewrite gen_step_new by exact Hi. unfold Gen.complete, Gen.path_exists. simpl.
    rewrite lookup_insert_eq.
    rewrite lookup_insert_ne by (apply not_eq_sym, render_ao_path_neq).
    rewrite lookup_insert_eq. reflexivity.
Qed.

Lemma gen_loop_completes idx st j :
  In j idx -> Gen.complete (Gen.fs (gloop st idx)) j = true.
Proof.
  revert st; induction idx as [|i idx IH]; intros st Hin; [destruct Hin|].
  simpl. destruct Hin as [<-|Hin]; [|apply IH, Hin].
  pose proof (gen_step_completes st i) as H.
  unfold Gen.complete in *. apply andb_true_iff in H as [H1 H2].
  rewrite !(gen_loop_exists idx); auto.
Qed.

Lemma gen_loop_all_skip idx st :
  (forall j, In j idx -> Gen.complete (Gen.fs st) j = true) ->
  Gen.fs (gloop st idx) = Gen.fs st /\ Gen.records (gloop st idx) = Gen.records st.
Proof.
  revert st; induction idx as [|i idx IH]; intros st H; simpl; [auto|].
  rewrite gen_step_skip by (apply H; left; reflexivity).
  apply (IH (Gen.mk_state _ _ _ _)). intros j Hj. apply H. right. exact Hj.
Qed.

Lemma gen_run_done n fs0 k0 st' :
  Gen.run mi rnd mesh_files n fs0 k0 = Gen.Done st' ->
  let stl := gloop (Gen.mk_state fs0 k0 [] []) (seq 0 n) in
  Gen.fs st' = <[metadata_path := TextFile (Gen.metadata_text (Gen.records stl))]> (Gen.fs stl) /\
  Gen.records st' = Gen.records stl /\ Gen.log st' = Gen.log stl.
Proof.
  unfold Gen.run. destruct mesh_files; [discriminate|]. intros [= <-]. simpl. auto.
Qed.

End GenFacts.

(** ** The generator *)

(** C3: frame [i] is skipped exactly when both of its files exist, a
    skipped frame writes nothing, a run never changes the files of a
    complete frame, and so a re-run with a sample count at most that of a
    completed run changes no frame file (only [metadata.jsonl] is
    rewritten). *)
Theorem gen_checkpoint_resume (mi : Mitsuba) (rnd : PyRandom) (mesh_files : list string) :
  (forall st i, Gen.complete (Gen.fs st) i = true ->
     Gen.frame_step mi rnd mesh_files st i =
     Gen.mk_state (Gen.fs st) (Gen.rng st) (Gen.records st)
                  (Gen.log st ++ [Gen.Skipping i])%list) /\
  (forall st i, Gen.complete (Gen.fs st) i = false ->
     let st' := Gen.frame_step mi rnd mesh_files st i in
     (exists r, Gen.records st' = (Gen.records st ++ [r])%list) /\
     Gen.fs st' !! render_path_of (Fmt.format_04d i) <> None /\
     Gen.fs st' !! ao_path_of (Fmt.format_04d i) <> None) /\
  (forall n fs0 k0 st' j,
     Gen.run mi rnd mesh_files n fs0 k0 = Gen.Done st' ->
     Gen.complete fs0 j = true ->
     Gen.fs st' !! render_path_of (Fmt.format_04d j) = fs0 !! render_path_of (Fmt.format_04d j) /\
     Gen.fs st' !! ao_path_of (Fmt.format_04d j) = fs0 !! ao_path_of (Fmt.format_04d j)) /\
  (forall n1 n2 fs0 k0 k1 st1 st2,
     Gen.run mi rnd mesh_files n1 fs0 k0 = Gen.Done st1 ->
     n2 <= n1 ->
     Gen.run mi rnd mesh_files n2 (Gen.fs st1) k1 = Gen.Done st2 ->
     Gen.fs st2 = <[metadata_path := TextFile EmptyString]> (Gen.fs st1)).
Proof.
  split; [|split; [|split]].
  - apply gen_step_skip.
  - intros st i Hi st'. subst st'. rewrite gen_step_new by exact Hi. simpl.
    split; [eexists; reflexivity|].
    rewrite lookup_insert_eq.
    rewrite lookup_insert_ne by (apply not_eq_sym, render_ao_path_neq).
    rewrite lookup_insert_eq. split; discriminate.
  - intros n fs0 k0 st' j Hrun Hj.
    destruct (gen_run_done _ _ _ _ _ _ _ Hrun) as (Hfs & _ & _). rewrite Hfs.
    rewrite !lookup_insert_ne by (apply metadata_render_neq || apply metadata_ao_neq).
    apply (gen_loop_keeps_complete mi rnd mesh_files (seq 0 n) (Gen.mk_state fs0 k0 [] []) j Hj).
  - intros n1 n2 fs0 k0 k1 st1 st2 Hrun1 Hle Hrun2.
    destruct (gen_run_done _ _ _ _ _ _ _ Hrun2) as (Hfs & _ & _). rewrite Hfs.
    destruct (gen_loop_all_skip mi rnd mesh_files (seq 0 n2)
                (Gen.mk_state (Gen.fs st1) k1 [] [])) as [H1 H2].
    + intros j Hj. apply in_seq in Hj. simpl.
      destruct (gen_run_done _ _ _ _ _ _ _ Hrun1) as (Hfs1 & _ & _). rewrite Hfs1.
      unfold Gen.complete, Gen.path_exists.
      rewrite !lookup_insert_ne by (apply metadata_render_neq || apply metadata_ao_neq).
      pose proof (gen_loop_completes mi rnd mesh_files (seq 0 n1)
                    (Gen.mk_state fs0 k0 [] []) j) as Hc.
      unfold Gen.complete, Gen.path_exists in Hc. apply Hc, in_seq. lia.
    + rewrite H1, H2. reflexivity.
Qed.




(** The draws of one frame, read off [draw_frame]: the stream position
    advances by one per draw, so the k-th frame's values sit at fixed
    offsets from its start position. *)
Ltac unfold_draw :=
  cbv beta iota zeta delta [Gen.draw_frame mbind mret rand_bind rand_ret rbind rret
                            uniform random_ choice fst snd Nat.add];
  let c := fresh "center" in let e := fresh "extents" in
  match goal with |- context [mi_bbox ?m ?p] => destruct (mi_bbox m p) as [c e] end;
  cbv beta iota zeta.

Lemma draw_frame_prompt (mi : Mitsuba) (rnd : PyRandom) (mesh_files : list string) k :
  let d := Gen.draw_frame mi rnd mesh_files k in
  d.1.1.2 = Gen.prompt_of d.1.2 /\
  d.1.2 = Gen.material_desc_of (roughness (sc_bsdf d.1.1.1)).
Proof. unfold_draw. split; reflexivity. Qed.

Lemma draw_frame_lights (mi : Mitsuba) (rnd : PyRandom) (mesh_files : list string) k :
  let sc := (Gen.draw_frame mi rnd mesh_files k).1.1.1 in
  let lx := fst (uniform rnd (-1) 1 (5 + k)) in
  let ly := fst (uniform rnd (-2 # 10) 1 (6 + k)) in
  let lz := fst (uniform rnd (-1) (-1 # 10) (7 + k)) in
  let temp_choice := fst (choice rnd EmptyString ["warm"; "neutral"; "cool"] (8 + k)) in
  let lt := Gen.light_temp temp_choice in
  let intensity := fst (uniform rnd (15 # 10) 6 (9 + k)) in
  let fill_factor := fst (uniform rnd (1 # 10) (4 # 10) (10 + k)) in
  sc_key_light sc =
    mk_light [lx; ly; lz] [(nth 0 lt 0 * intensity)%Q; (nth 1 lt 0 * intensity)%Q;
                           (nth 2 lt 0 * intensity)%Q] /\
  sc_fill_light sc =
    mk_light [(- lx)%Q; ly; (- lz)%Q] [(intensity * fill_factor)%Q;
      (intensity * fill_factor)%Q; (intensity * fill_factor)%Q].
Proof. unfold_draw. split; reflexivity. Qed.

Lemma uniform_fst (rnd : PyRandom) a b k :
  fst (uniform rnd a b k) = (a + (b - a) * py_random rnd k)%Q.
Proof. reflexivity. Qed.

Lemma uniform_range (rnd : PyRandom) a b k :
  rng_valid rnd -> (a <= b)%Q ->
  (a <= fst (uniform rnd a b k) <= b)%Q.
Proof.
  intros [Hr _] Hab. rewrite uniform_fst. destruct (Hr k) as [H0 H1].
  assert (Hd : (0 <= b - a)%Q) by lra.
  assert (Hl : (0 <= (b - a) * py_random rnd k)%Q) by (apply Qmult_le_0_compat; assumption).
  assert (Hu : (py_random rnd k * (b - a) <= 1 * (b - a))%Q)
    by (apply Qmult_le_compat_r; [apply Qlt_le_weak; exact H1|exact Hd]).
  lra.
Qed.

Lemma choice_in (rnd : PyRandom) {A} (d : A) xs k :
  rng_valid rnd -> xs <> [] -> In (fst (choice rnd d xs k)) xs.
Proof.
  intros [_ Hb] Hne. simpl. apply nth_In, Hb.
  destruct xs; [congruence|simpl; lia].
Qed.

Lemma py_lt_spec x y : Gen.py_lt x y = true <-> (x < y)%Q.
Proof.
  unfold Gen.py_lt. rewrite negb_true_iff. split.
  - intros H. apply Qnot_le_lt. intros Hle. apply Qle_bool_iff in Hle. congruence.
  - intros H. destruct (Qle_bool y x) eqn:E; [|reflexivity].
    apply Qle_bool_iff in E. exfalso. apply (Qlt_not_le x y); assumption.
Qed.

Lemma prompts_differ : Gen.prompt_of "shiny silk" <> Gen.prompt_of "matte wool".
Proof. intros H. vm_compute in H. discriminate. Qed.

Lemma to_u8_range x : (0 <= Gen.to_u8 (Gen.clip01 x) <= 255)%Z.
Proof.
  unfold Gen.to_u8, Gen.clip01.
  assert (H0 : (0 <= Qmin (Qmax x 0) 1)%Q).
  { apply Q.min_glb; [apply Q.le_max_r|discriminate]. }
  assert (H1 : (Qmin (Qmax x 0) 1 <= 1)%Q) by apply Q.le_min_r.
  split.
  - change 0%Z with (Qfloor 0). apply Qfloor_resp_le.
    apply Qmult_le_0_compat; [exact H0|discriminate].
  - change 255%Z with (Qfloor (1 * 255)). apply Qfloor_resp_le.
    apply Qmult_le_compat_r; [exact H1|discriminate].
Qed.

Lemma rnd_sample_valid : rng_valid rnd_sample.
Proof.
  split.
  - intros k. simpl. unfold Qle, Qlt; simpl.
    pose proof (Nat.mod_upper_bound k 10 ltac:(lia)). lia.
  - intros n k Hn. simpl. apply Nat.mod_upper_bound. lia.
Qed.

(** C5: a frame that is rendered gets an AO image with one pixel per
    pixel of the returned buffer: the mean of channels 4, 5 and 6 when the
    buffer has at least seven channels, else the mean of channels 0, 1 and
    2 (and then a warning is logged), clamped to [0, 1] and scaled to
    8 bits. *)
Theorem gen_ao_channels (mi : Mitsuba) (rnd : PyRandom) (mesh_files : list string) st i :
  Gen.complete (Gen.fs st) i = false ->
  let frame_str := Fmt.format_04d i in
  let buf := mi_render mi (Gen.draw_frame mi rnd mesh_files (Gen.rng st)).1.1.1 in
  let st' := Gen.frame_step mi rnd mesh_files st i in
  exists img,
    Gen.fs st' !! ao_path_of frame_str = Some (PngGray img) /\
    (forall r c, px img r c = None <-> px (pixels buf) r c = None) /\
    (7 <= channels buf -> forall r c p, px (pixels buf) r c = Some p ->
       px img r c = Some (Gen.to_u8 (Gen.clip01 ((nth 4 p 0 + nth 5 p 0 + nth 6 p 0) / 3)%Q))) /\
    (channels buf < 7 -> forall r c p, px (pixels buf) r c = Some p ->
       px img r c = Some (Gen.to_u8 (Gen.clip01 ((nth 0 p 0 + nth 1 p 0 + nth 2 p 0) / 3)%Q))) /\
    (forall r c v, px img r c = Some v -> 0 <= v <= 255)%Z /\
    (channels buf < 7 -> In (Gen.WarnNoAOV frame_str) (Gen.log st')) /\
    (7 <= channels buf ->
       Gen.log st' = (Gen.log st ++ [Gen.SavedFrame i
                         (Gen.draw_frame mi rnd mesh_files (Gen.rng st)).1.2])%list).
Proof.
  intros Hi frame_str buf st'. subst st'.
  rewrite gen_step_new by exact Hi. cbn zeta. fold frame_str buf.
  exists (Gen.ao_of buf). unfold Gen.fs at 1, Gen.log.
  split; [apply lookup_insert_eq|].
  unfold Gen.ao_of. split; [|split; [|split; [|split; [|split]]]].
  - intros r c. rewrite px_map. destruct (px (pixels buf) r c); simpl; split; congruence.
  - intros H7 r c p Hp. rewrite px_map, Hp. simpl. unfold Gen.ao_gray_px.
    apply Nat.leb_le in H7. rewrite H7. reflexivity.
  - intros H7 r c p Hp. rewrite px_map, Hp. simpl. unfold Gen.ao_gray_px.
    destruct (Nat.leb_spec 7 (channels buf)); [lia|]. reflexivity.
  - intros r c v Hv. rewrite px_map in Hv.
    destruct (px (pixels buf) r c); simpl in Hv; [|discriminate].
    injection Hv as <-. apply to_u8_range.
  - intros H7. destruct (Nat.leb_spec 7 (channels buf)); [lia|].
    apply in_or_app. right. left. reflexivity.
  - intros H7. apply Nat.leb_le in H7. rewrite H7. reflexivity.
Qed.

Lemma gen_ao_channels_witness :
  Gen.complete ∅ 0 = false /\
  (let st0 := Gen.mk_state ∅ 0 [] [] in
   let frame_str := Fmt.format_04d 0 in
   let buf := mi_render mi_sample_rgba
                (Gen.draw_frame mi_sample_rgba rnd_sample sample_meshes (Gen.rng st0)).1.1.1 in
   let st' := Gen.frame_step mi_sample_rgba rnd_sample sample_meshes st0 0 in
   exists img,
    Gen.fs st' !! ao_path_of frame_str = Some (PngGray img) /\
    (forall r c, px img r c = None <-> px (pixels buf) r c = None) /\
    (7 <= channels buf -> forall r c p, px (pixels buf) r c = Some p ->
       px img r c = Some (Gen.to_u8 (Gen.clip01 ((nth 4 p 0 + nth 5 p 0 + nth 6 p 0) / 3)%Q))) /\
    (channels buf < 7 -> forall r c p, px (pixels buf) r c = Some p ->
       px img r c = Some (Gen.to_u8 (Gen.clip01 ((nth 0 p 0 + nth 1 p 0 + nth 2 p 0) / 3)%Q))) /\
    (forall r c v, px img r c = Some v -> 0 <= v <= 255)%Z /\
    (channels buf < 7 -> In (Gen.WarnNoAOV frame_str) (Gen.log st')) /\
    (7 <= channels buf ->
       Gen.log st' = (Gen.log st0 ++ [Gen.SavedFrame 0
                         (Gen.draw_frame mi_sample_rgba rnd_sample sample_meshes (Gen.rng st0)).1.2])%list)).
Proof.
  split; [reflexivity|].
  apply (gen_ao_channels mi_sample_rgba rnd_sample sample_meshes (Gen.mk_state ∅ 0 [] []) 0).
  reflexivity.
Defined.

(** C8: the record appended for a rendered frame carries the prompt built
    from "shiny silk" exactly when the roughness of the rendered scene's
    material is below 0.4, and the one built from "matte wool" exactly when
    it is at least 0.4. *)
Theorem gen_prompt_roughness (mi : Mitsuba) (rnd : PyRandom) (mesh_files : list string) st i :
  Gen.complete (Gen.fs st) i = false ->
  let sc := (Gen.draw_frame mi rnd mesh_files (Gen.rng st)).1.1.1 in
  let st' := Gen.frame_step mi rnd mesh_files st i in
  Gen.fs st' !! render_path_of (Fmt.format_04d i) =
    Some (PngColor (Gen.beauty_of (mi_render mi sc))) /\
  exists r,
    Gen.records st' = (Gen.records st ++ [r])%list /\
    (Gen.text r = Gen.prompt_of "shiny silk" <-> (roughness (sc_bsdf sc) < 4 # 10)%Q) /\
    (Gen.text r = Gen.prompt_of "matte wool" <-> (4 # 10 <= roughness (sc_bsdf sc))%Q).
Proof.
  intros Hi sc st'. subst st'.
  rewrite gen_step_new by exact Hi. cbn zeta. fold sc.
  destruct (draw_frame_prompt mi rnd mesh_files (Gen.rng st)) as [Hp Hd].
  unfold Gen.fs at 1, Gen.records at 1. split.
  { rewrite lookup_insert_ne by (apply not_eq_sym, render_ao_path_neq). apply lookup_insert_eq. }
  eexists. split; [reflexivity|]. simpl. rewrite Hp, Hd. fold sc.
  unfold Gen.material_desc_of.
  destruct (Gen.py_lt (roughness (sc_bsdf sc)) (4 # 10)) eqn:E.
  - apply py_lt_spec in E. split; split; intros H; auto.
    + exfalso. apply prompts_differ. exact H.
    + exfalso. apply (Qlt_not_le _ _ E H).
  - assert (E' : ~ (roughness (sc_bsdf sc) < 4 # 10)%Q)
      by (intros H; apply py_lt_spec in H; congruence).
    split; split; intros H; auto.
    + exfalso. apply prompts_differ. symmetry. exact H.
    + contradiction.
    + apply Qnot_lt_le. exact E'.
Qed.

Lemma gen_prompt_roughness_witness :
  Gen.complete ∅ 0 = false /\
  (let sc := (Gen.draw_frame mi_sample rnd_sample sample_meshes 0).1.1.1 in
   let st' := Gen.frame_step mi_sample rnd_sample sample_meshes (Gen.mk_state ∅ 0 [] []) 0 in
   Gen.fs st' !! render_path_of (Fmt.format_04d 0) =
     Some (PngColor (Gen.beauty_of (mi_render mi_sample sc))) /\
   exists r,
     Gen.records st' = ([] ++ [r])%list /\
     (Gen.text r = Gen.prompt_of "shiny silk" <-> (roughness (sc_bsdf sc) < 4 # 10)%Q) /\
     (Gen.text r = Gen.prompt_of "matte wool" <-> (4 # 10 <= roughness (sc_bsdf sc))%Q)).
Proof.
  split; [reflexivity|].
  apply (gen_prompt_roughness mi_sample rnd_sample sample_meshes (Gen.mk_state ∅ 0 [] []) 0).
  reflexivity.
Defined.

(** C10: in a rendered frame's scene the fill light points along the key
    light's direction with x and z negated, has a neutral (equal-component)
    irradiance equal to the key intensity times a factor drawn from
    [0.1, 0.4], so at most 0.4 times the key intensity; the key irradiance
    is that intensity times the colour of the drawn temperature bucket. *)
Theorem gen_fill_light (mi : Mitsuba) (rnd : PyRandom) (mesh_files : list string) st i :
  rng_valid rnd ->
  Gen.complete (Gen.fs st) i = false ->
  let sc := (Gen.draw_frame mi rnd mesh_files (Gen.rng st)).1.1.1 in
  Gen.fs (Gen.frame_step mi rnd mesh_files st i) !! render_path_of (Fmt.format_04d i) =
    Some (PngColor (Gen.beauty_of (mi_render mi sc))) /\
  exists lx ly lz temp_choice intensity fill_factor,
    In temp_choice ["warm"; "neutral"; "cool"] /\
    sc_key_light sc =
      mk_light [lx; ly; lz]
        [(nth 0 (Gen.light_temp temp_choice) 0 * intensity)%Q;
         (nth 1 (Gen.light_temp temp_choice) 0 * intensity)%Q;
         (nth 2 (Gen.light_temp temp_choice) 0 * intensity)%Q] /\
    sc_fill_light sc =
      mk_light [(- lx)%Q; ly; (- lz)%Q]
        [(intensity * fill_factor)%Q; (intensity * fill_factor)%Q;
         (intensity * fill_factor)%Q] /\
    (15 # 10 <= intensity)%Q /\
    (1 # 10 <= fill_factor <= 4 # 10)%Q /\
    (intensity * fill_factor <= (4 # 10) * intensity)%Q.
Proof.
  intros Hv Hi sc.
  rewrite gen_step_new by exact Hi. cbn zeta. fold sc. split.
  { simpl. rewrite lookup_insert_ne by (apply not_eq_sym, render_ao_path_neq). apply lookup_insert_eq. }
  destruct (draw_frame_lights mi rnd mesh_files (Gen.rng st)) as [Hk Hf].
  fold sc in Hk, Hf.
  do 6 eexists. split; [|split; [exact Hk|split; [exact Hf|]]].
  { apply choice_in; [exact Hv|discriminate]. }
  destruct (uniform_range rnd (15 # 10) 6 (9 + Gen.rng st) Hv ltac:(discriminate))
    as [Hi1 _].
  destruct (uniform_range rnd (1 # 10) (4 # 10) (10 + Gen.rng st) Hv ltac:(discriminate))
    as [Hf1 Hf2].
  split; [exact Hi1|]. split; [split; assumption|].
  rewrite (Qmult_comm (4 # 10)). apply Qmult_le_l; [|exact Hf2].
  apply Qlt_le_trans with (15 # 10); [reflexivity|exact Hi1].
Qed.

Lemma gen_fill_light_witness :
  rng_valid rnd_sample /\ Gen.complete ∅ 0 = false /\
  (let sc := (Gen.draw_frame mi_sample rnd_sample sample_meshes 0).1.1.1 in
   Gen.fs (Gen.frame_step mi_sample rnd_sample sample_meshes (Gen.mk_state ∅ 0 [] []) 0)
     !! render_path_of (Fmt.format_04d 0) =
     Some (PngColor (Gen.beauty_of (mi_render mi_sample sc))) /\
   exists lx ly lz temp_choice intensity fill_factor,
     In temp_choice ["warm"; "neutral"; "cool"] /\
     sc_key_light sc =
       mk_light [lx; ly; lz]
         [(nth 0 (Gen.light_temp temp_choice) 0 * intensity)%Q;
          (nth 1 (Gen.light_temp temp_choice) 0 * intensity)%Q;
          (nth 2 (Gen.light_temp temp_choice) 0 * intensity)%Q] /\
     sc_fill_light sc =
       mk_light [(- lx)%Q; ly; (- lz)%Q]
         [(intensity * fill_factor)%Q; (intensity * fill_factor)%Q;
          (intensity * fill_factor)%Q] /\
     (15 # 10 <= intensity)%Q /\
     (1 # 10 <= fill_factor <= 4 # 10)%Q /\
     (intensity * fill_factor <= (4 # 10) * intensity)%Q).
Proof.
  split; [exact rnd_sample_valid|]. split; [reflexivity|].
  apply (gen_fill_light mi_sample rnd_sample sample_meshes (Gen.mk_state ∅ 0 [] []) 0).
  - exact rnd_sample_valid.
  - reflexivity.
Defined.

(** *** The lines of [metadata.jsonl] *)

Lemma newline_free_app a b :
  Json.newline_free (a ++ b) = Json.newline_free a && Json.newline_free b.
Proof.
  induction a as [|c a IH]; [reflexivity|].
  rewrite str_app_cons. simpl. rewrite IH. apply andb_assoc.
Qed.

Lemma escape_char_newline_free c : Json.newline_free (Json.escape_char c) = true.
Proof. destruct c as [[] [] [] [] [] [] [] []]; vm_compute; reflexivity. Qed.

Lemma escape_newline_free s : Json.newline_free (Json.escape s) = true.
Proof.
  induction s as [|c s IH]; [reflexivity|]. simpl.
  rewrite newline_free_app, escape_char_newline_free, IH. reflexivity.
Qed.

Lemma quote_newline_free s : Json.newline_free (Json.quote s) = true.
Proof.
  unfold Json.quote. simpl. rewrite newline_free_app, escape_newline_free. reflexivity.
Qed.

Lemma record_json_dumps r :
  Json.dumps (Gen.record_json r) =
  "{" ++ (Json.quote "file_name" ++ ": " ++ Json.quote (Gen.file_name r) ++ ", " ++
  Json.quote "conditioning_image" ++ ": " ++ Json.quote (Gen.conditioning_image r) ++ ", " ++
  Json.quote "ao_image" ++ ": " ++ Json.quote (Gen.ao_image r) ++ ", " ++
  Json.quote "text" ++ ": " ++ Json.quote (Gen.text r)) ++ "}".
Proof. reflexivity. Qed.

Lemma decode_escape_char c r : Json.decode_char (Json.escape_char c ++ r) = Some (c, r).
Proof. destruct c as [[] [] [] [] [] [] [] []]; vm_compute; reflexivity. Qed.

Lemma escape_char_head c :
  exists x y, Json.escape_char c = String x y /\ Ascii.eqb x "034" = false.
Proof. destruct c as [[] [] [] [] [] [] [] []]; eexists _, _; split; reflexivity. Qed.

Lemma escape_length s : String.length s <= String.length (Json.escape s).
Proof.
  induction s as [|c s IH]; [simpl; lia|]. simpl. rewrite str_length_app.
  destruct (escape_char_head c) as (x & y & Hxy & _). rewrite Hxy. simpl. lia.
Qed.

Lemma string_body_escape t rest fuel :
  String.length t < fuel ->
  Json.string_body fuel (Json.escape t ++ String "034" rest) = Some (t, rest).
Proof.
  revert fuel; induction t as [|c t IH]; intros [|f] Hf; simpl in Hf; try lia.
  - reflexivity.
  - change (Json.escape (String c t)) with (Json.escape_char c ++ Json.escape t).
    rewrite str_app_assoc.
    destruct (escape_char_head c) as (x & y & Hxy & Hx).
    pose proof (decode_escape_char c (Json.escape t ++ String "034" rest)) as Hd.
    rewrite Hxy in Hd |- *. rewrite str_app_cons in Hd |- *.
    cbn [Json.string_body]. rewrite Hx, Hd, IH by lia. reflexivity.
Qed.

Lemma quote_app s r : Json.quote s ++ r = String "034" (Json.escape s ++ String "034" r).
Proof. unfold Json.quote. rewrite str_app_cons, str_app_assoc. reflexivity. Qed.

Lemma string_lit_quote w s rest :
  (forall x, Json.skip_ws (w ++ x) = Json.skip_ws x) ->
  Json.string_lit (w ++ Json.quote s ++ rest) = Some (s, rest).
Proof.
  intros Hw. unfold Json.string_lit. rewrite Hw, quote_app. cbn [Json.skip_ws].
  simpl. apply string_body_escape.
  rewrite str_length_app. simpl. pose proof (escape_length s). lia.
Qed.

Lemma string_lit_quote_sp s rest :
  Json.string_lit (String " " (Json.quote s ++ rest)) = Some (s, rest).
Proof. exact (string_lit_quote " " s rest (fun x => eq_refl)). Qed.

Lemma members_more w k v rest f :
  (forall x, Json.skip_ws (w ++ x) = Json.skip_ws x) ->
  Json.members (S f) (w ++ Json.quote k ++ ": " ++ Json.quote v ++ ", " ++ rest) =
  match Json.members f (" " ++ rest) with
  | Some (ms, r) => Some ((k, v) :: ms, r)
  | None => None
  end.
Proof.
  intros Hw. cbn [Json.members]. rewrite string_lit_quote by exact Hw.
  rewrite !str_app_cons, !str_app_nil_l. simpl.
  rewrite string_lit_quote_sp.
  rewrite ?str_app_cons, ?str_app_nil_l. simpl. reflexivity.
Qed.

Lemma members_first k v rest f :
  Json.members (S f) (Json.quote k ++ ": " ++ Json.quote v ++ ", " ++ rest) =
  match Json.members f (" " ++ rest) with
  | Some (ms, r) => Some ((k, v) :: ms, r)
  | None => None
  end.
Proof. exact (members_more EmptyString k v rest f (fun x => eq_refl)). Qed.

Lemma members_last w k v f :
  (forall x, Json.skip_ws (w ++ x) = Json.skip_ws x) ->
  Json.members (S f) (w ++ Json.quote k ++ ": " ++ Json.quote v ++ "}") =
  Some ([(k, v)], EmptyString).
Proof.
  intros Hw. cbn [Json.members]. rewrite string_lit_quote by exact Hw.
  rewrite !str_app_cons, !str_app_nil_l. simpl.
  rewrite string_lit_quote_sp. reflexivity.
Qed.

Lemma quote_length s : 2 <= String.length (Json.quote s).
Proof. unfold Json.quote. simpl. rewrite str_length_app. simpl. lia. Qed.

Lemma parse_record_line r :
  Json.parse_object (Json.dumps (Gen.record_json r)) =
  Some [("file_name", Gen.file_name r); ("conditioning_image", Gen.conditioning_image r);
        ("ao_image", Gen.ao_image r); ("text", Gen.text r)].
Proof.
  rewrite record_json_dumps, !str_app_assoc.
  unfold Json.parse_object.
  change ("{" ++ ?x) with (String "{" x).
  cbn [Json.skip_ws Json.is_ws Ascii.eqb Bool.eqb orb].
  match goal with |- context [Json.members (String.length ?x) ?x] =>
    set (X := x); assert (HX : 4 <= String.length X) end.
  { subst X. rewrite !str_length_app. cbn [String.length].
    pose proof (quote_length "file_name"). pose proof (quote_length (Gen.file_name r)). lia. }
  destruct (String.length X) as [|[|[|[|f]]]]; try lia. subst X.
  rewrite members_first.
  rewrite (members_more " " _ _ _ _ (fun x => eq_refl)).
  rewrite (members_more " " _ _ _ _ (fun x => eq_refl)).
  rewrite (members_last " " _ _ _ (fun x => eq_refl)).
  reflexivity.
Qed.

Lemma record_line_newline_free r : Json.newline_free (Json.dumps (Gen.record_json r)) = true.
Proof.
  rewrite record_json_dumps. rewrite !newline_free_app, !quote_newline_free. reflexivity.
Qed.

Lemma lines_aux_line cur s rest :
  Json.newline_free s = true ->
  Json.lines_aux cur (s ++ String "010" rest) = (cur ++ s) :: Json.lines_aux EmptyString rest.
Proof.
  revert cur; induction s as [|c s IH]; intros cur Hs.
  - simpl. rewrite str_app_nil_r. reflexivity.
  - simpl in Hs. apply andb_true_iff in Hs as [Hc Hs].
    rewrite str_app_cons. simpl. apply negb_true_iff in Hc. rewrite Hc.
    rewrite IH by exact Hs. rewrite str_app_assoc. reflexivity.
Qed.

Lemma metadata_lines recs :
  Json.lines (Gen.metadata_text recs) = map (fun r => Json.dumps (Gen.record_json r)) recs.
Proof.
  unfold Json.lines. induction recs as [|r recs IH]; [reflexivity|].
  cbn [map Gen.metadata_text]. rewrite <- IH.
  change (String "010" EmptyString ++ Gen.metadata_text recs)
    with (String "010" (Gen.metadata_text recs)).
  apply lines_aux_line, record_line_newline_free.
Qed.

Lemma gen_step_complete_other (mi : Mitsuba) (rnd : PyRandom) (mesh_files : list string)
  st i j :
  i <> j ->
  Gen.complete (Gen.fs (Gen.frame_step mi rnd mesh_files st j)) i = Gen.complete (Gen.fs st) i.
Proof.
  intros Hij. destruct (Gen.complete (Gen.fs st) j) eqn:Hj.
  - rewrite gen_step_skip by exact Hj. reflexivity.
  - rewrite gen_step_new by exact Hj. apply complete_ext; simpl.
    + rewrite lookup_insert_ne by (apply not_eq_sym, render_ao_path_neq).
      rewrite lookup_insert_ne; [reflexivity|].
      intros H. apply render_path_of_inj, format_04d_inj in H. congruence.
    + rewrite lookup_insert_ne.
      * rewrite lookup_insert_ne by apply render_ao_path_neq. reflexivity.
      * intros H. apply ao_path_of_inj, format_04d_inj in H. congruence.
Qed.

Lemma gen_loop_records (mi : Mitsuba) (rnd : PyRandom) (mesh_files : list string) idx st :
  List.NoDup idx ->
  exists extra,
    Gen.records (Gen.loop mi rnd mesh_files st idx) = (Gen.records st ++ extra)%list /\
    Forall2 frame_paths_ok (List.filter (fun i => negb (Gen.complete (Gen.fs st) i)) idx) extra.
Proof.
  revert st; induction idx as [|i idx IH]; intros st Hnd.
  - exists []. rewrite app_nil_r. split; [reflexivity|constructor].
  - apply NoDup_cons_iff in Hnd as [Hni Hnd].
    set (st1 := Gen.frame_step mi rnd mesh_files st i).
    change (Gen.loop mi rnd mesh_files st (i :: idx)) with (Gen.loop mi rnd mesh_files st1 idx).
    assert (Hf : List.filter (fun j => negb (Gen.complete (Gen.fs st1) j)) idx =
                 List.filter (fun j => negb (Gen.complete (Gen.fs st) j)) idx).
    { apply filter_ext_in. intros j Hj. subst st1.
      rewrite gen_step_complete_other; [reflexivity|]. intros ->. contradiction. }
    destruct (IH st1 Hnd) as (extra & Hr & Hfa). rewrite Hf in Hfa.
    cbn [List.filter]. destruct (Gen.complete (Gen.fs st) i) eqn:Hi; cbn [negb].
    + exists extra. rewrite Hr. subst st1. rewrite gen_step_skip by exact Hi.
      split; [reflexivity|exact Hfa].
    + assert (Hr1 : Gen.records st1 =
                    (Gen.records st ++
                     [Gen.mk_record (render_path_of (Fmt.format_04d i))
                        (conditioning_path_of (Fmt.format_04d i)) (ao_path_of (Fmt.format_04d i))
                        (Gen.draw_frame mi rnd mesh_files (Gen.rng st)).1.1.2])%list).
      { subst st1. rewrite gen_step_new by exact Hi. reflexivity. }
      eexists. split; [rewrite Hr, Hr1, <- app_assoc; reflexivity|].
      constructor; [|exact Hfa]. repeat split.
Qed.


(** C4: after a completed generation run, [metadata.jsonl] holds one line
    per frame of the run that was not skipped, in frame order: the n-th line
    is the JSON object of the n-th such frame, and reads back as an object
    with exactly the keys [file_name], [conditioning_image], [ao_image] and
    [text], each with a string value, the first three the paths of that
    frame's files. *)
Theorem gen_metadata_lines (mi : Mitsuba) (rnd : PyRandom) (mesh_files : list string)
  n fs0 k0 st' :
  Gen.run mi rnd mesh_files n fs0 k0 = Gen.Done st' ->
  exists recs,
    Gen.fs st' !! metadata_path = Some (TextFile (Gen.metadata_text recs)) /\
    Json.lines (Gen.metadata_text recs) =
      map (fun r => Json.dumps (Json.JObject
             [("file_name", Json.JString (Gen.file_name r));
              ("conditioning_image", Json.JString (Gen.conditioning_image r));
              ("ao_image", Json.JString (Gen.ao_image r));
              ("text", Json.JString (Gen.text r))])) recs /\
    Forall2 (fun line r =>
               Json.parse_object line =
               Some [("file_name", Gen.file_name r);
                     ("conditioning_image", Gen.conditioning_image r);
                     ("ao_image", Gen.ao_image r); ("text", Gen.text r)])
            (Json.lines (Gen.metadata_text recs)) recs /\
    Forall2 (fun i r =>
               Gen.file_name r = render_path_of (Fmt.format_04d i) /\
               Gen.conditioning_image r = conditioning_path_of (Fmt.format_04d i) /\
               Gen.ao_image r = ao_path_of (Fmt.format_04d i))
            (List.filter (fun i => negb (Gen.complete fs0 i)) (seq 0 n)) recs.
Proof.
  intros Hrun. destruct (gen_run_done _ _ _ _ _ _ _ Hrun) as (Hfs & _ & _).
  destruct (gen_loop_records mi rnd mesh_files (seq 0 n) (Gen.mk_state fs0 k0 [] [])
              (seq_NoDup n 0)) as (extra & Hr & Hfa).
  exists extra. split; [|split; [|split]].
  - rewrite Hfs, lookup_insert_eq, Hr. reflexivity.
  - apply metadata_lines.
  - rewrite metadata_lines. clear. induction extra as [|r extra IH]; constructor.
    + apply parse_record_line.
    + exact IH.
  - exact Hfa.
Qed.

Lemma gen_metadata_lines_witness :
  exists st',
    Gen.run mi_sample rnd_sample sample_meshes 2 fs_frame0 0 = Gen.Done st' /\
    exists recs,
      Gen.fs st' !! metadata_path = Some (TextFile (Gen.metadata_text recs)) /\
      Json.lines (Gen.metadata_text recs) =
        map (fun r => Json.dumps (Json.JObject
               [("file_name", Json.JString (Gen.file_name r));
                ("conditioning_image", Json.JString (Gen.conditioning_image r));
                ("ao_image", Json.JString (Gen.ao_image r));
                ("text", Json.JString (Gen.text r))])) recs /\
      Forall2 (fun line r =>
                 Json.parse_object line =
                 Some [("file_name", Gen.file_name r);
                       ("conditioning_image", Gen.conditioning_image r);
                       ("ao_image", Gen.ao_image r); ("text", Gen.text r)])
              (Json.lines (Gen.metadata_text recs)) recs /\
      Forall2 (fun i r =>
                 Gen.file_name r = render_path_of (Fmt.format_04d i) /\
                 Gen.conditioning_image r = conditioning_path_of (Fmt.format_04d i) /\
                 Gen.ao_image r = ao_path_of (Fmt.format_04d i))
              (List.filter (fun i => negb (Gen.complete fs_frame0 i)) (seq 0 2)) recs.
Proof.
  eexists. split; [reflexivity|].
  eapply (gen_metadata_lines mi_sample rnd_sample sample_meshes 2 fs_frame0 0).
  reflexivity.
Defined.

(* ------------------------------------------------------------------ *)
(** ** Further properties of the two scripts *)

Lemma py_replace_aux_nil fuel old new : py_replace_aux fuel old new EmptyString = EmptyString.
Proof. destruct fuel; reflexivity. Qed.

Lemma py_replace_aux_skip fuel old new s rest o old' :
  old = String o old' ->
  (forall c, In c (list_ascii_of_string s) -> c <> o) ->
  String.length s <= fuel ->
  py_replace_aux fuel old new (s ++ rest) = s ++ py_replace_aux (fuel - String.length s) old new rest.
Proof.
  intros -> ; revert fuel; induction s as [|c s IH]; intros fuel Hs Hf.
  - rewrite Nat.sub_0_r. reflexivity.
  - destruct fuel as [|f]; [simpl in Hf; lia|].
    rewrite str_app_cons. cbn [py_replace_aux String.prefix].
    destruct (ascii_dec o c) as [->|_].
    + exfalso. apply (Hs c); [left; reflexivity|reflexivity].
    + rewrite IH; [reflexivity| |simpl in Hf; lia].
      intros c' Hc'. apply Hs. right. exact Hc'.
Qed.

Lemma substring_app_l p t : substring (String.length p) (String.length t) (p ++ t) = t.
Proof.
  induction p as [|c p IH]; [|exact IH].
  induction t as [|c t IH]; [reflexivity|]. simpl. f_equal. exact IH.
Qed.

Lemma string_of_digits_chars ds c :
  Forall (fun d => d < 10) ds ->
  In c (list_ascii_of_string (Fmt.string_of_digits ds)) ->
  48 <= nat_of_ascii c <= 57.
Proof.
  induction 1 as [|d ds Hd _ IH]; simpl; [tauto|].
  intros [<-|H]; [|auto]. unfold Fmt.digit_char. rewrite nat_ascii_embedding; lia.
Qed.

Lemma format_04d_chars i c :
  In c (list_ascii_of_string (Fmt.format_04d i)) -> 48 <= nat_of_ascii c <= 57.
Proof.
  apply string_of_digits_chars. apply Forall_app; split; [|apply FmtFacts.digits_small].
  generalize (4 - length (Fmt.digits i)) as k.
  induction k as [|k IH]; simpl; constructor; auto. lia.
Qed.

Lemma prefix_app p t : String.prefix p (p ++ t) = true.
Proof.
  induction p as [|c p IH]; [destruct t; reflexivity|].
  rewrite str_app_cons. simpl. destruct (ascii_dec c c); [exact IH|congruence].
Qed.

Lemma py_replace_aux_hit fuel old new t :
  old <> EmptyString ->
  py_replace_aux (S fuel) old new (old ++ t) = new ++ py_replace_aux fuel old new t.
Proof.
  intros Hold. destruct old as [|o old']; [congruence|].
  rewrite str_app_cons. cbn [py_replace_aux]. rewrite <- str_app_cons, prefix_app.
  rewrite str_length_app, Nat.add_comm, Nat.add_sub, substring_app_l. reflexivity.
Qed.

Lemma render_basename_paths i :
  Sketch.render_path_in (render_basename i) = render_path_of (Fmt.format_04d i) /\
  Sketch.frame_str_of (render_basename i) = Fmt.format_04d i.
Proof.
  unfold render_basename. split; [reflexivity|].
  set (F := Fmt.format_04d i) in *.
  assert (HF : forall c, In c (list_ascii_of_string F) -> 48 <= nat_of_ascii c <= 57)
    by apply format_04d_chars.
  assert (Hr : forall c, In c (list_ascii_of_string F) -> c <> "r"%char).
  { intros c Hc ->. specialize (HF _ Hc). vm_compute in HF. lia. }
  assert (Hd : forall c, In c (list_ascii_of_string F) -> c <> "."%char).
  { intros c Hc ->. specialize (HF _ Hc). vm_compute in HF. lia. }
  unfold Sketch.frame_str_of, py_replace.
  rewrite !str_length_app. cbn [String.length].
  replace (7 + (String.length F + 4)) with (S (String.length F + 10)) by lia.
  rewrite py_replace_aux_hit by discriminate. rewrite str_app_nil_l.
  rewrite (py_replace_aux_skip _ _ _ F ".png" "r" "ender_") by (auto || lia).
  rewrite (py_replace_aux_skip _ _ _ ".png" EmptyString "r" "ender_");
    [|reflexivity| |cbn [String.length]; lia].
  2:{ intros c Hc. simpl in Hc. intuition (subst; discriminate). }
  rewrite py_replace_aux_nil, str_app_nil_r.
  rewrite str_length_app. cbn [String.length].
  replace (String.length F + 4) with (String.length F + S 3) by lia.
  rewrite (py_replace_aux_skip _ _ _ F ".png" "." "png") by (auto || lia).
  replace (String.length F + S 3 - String.length F) with 4 by lia.
  pose proof (py_replace_aux_hit 3 ".png" EmptyString EmptyString) as H.
  rewrite str_app_nil_r in H. rewrite H by discriminate.
  rewrite py_replace_aux_nil. simpl. apply str_app_nil_r.
Qed.

(** The sketch stage, given the basename the generator gave frame [i],
    reads the generator's render and AO files of frame [i] and writes the
    conditioning path the metadata record of frame [i] names: the
    [str.replace] calls recover [f"{i:04d}"]. *)
Theorem sketch_paths_of_render_basename i :
  Sketch.render_path_in (render_basename i) = render_path_of (Fmt.format_04d i) /\
  ao_path_of (Sketch.frame_str_of (render_basename i)) = ao_path_of (Fmt.format_04d i) /\
  conditioning_path_of (Sketch.frame_str_of (render_basename i)) =
    conditioning_path_of (Fmt.format_04d i).
Proof. destruct (render_basename_paths i) as [H1 H2]. rewrite H2. auto. Qed.

Lemma draw_frame_rng (mi : Mitsuba) (rnd : PyRandom) (mesh_files : list string) k :
  (Gen.draw_frame mi rnd mesh_files k).2 = 21 + k.
Proof. unfold_draw. reflexivity. Qed.

Lemma filter_length_split {A} (f : A -> bool) (l : list A) :
  length (List.filter f l) + length (List.filter (fun x => negb (f x)) l) = length l.
Proof. induction l as [|x l IH]; simpl; [reflexivity|]. destruct (f x); simpl; lia. Qed.

Lemma gen_loop_rng (mi : Mitsuba) (rnd : PyRandom) (mesh_files : list string) idx st :
  List.NoDup idx ->
  Gen.rng (Gen.loop mi rnd mesh_files st idx) =
  Gen.rng st + 21 * length (List.filter (fun i => negb (Gen.complete (Gen.fs st) i)) idx).
Proof.
  revert st; induction idx as [|i idx IH]; intros st Hnd; [simpl; lia|].
  apply NoDup_cons_iff in Hnd as [Hni Hnd].
  set (st1 := Gen.frame_step mi rnd mesh_files st i).
  change (Gen.loop mi rnd mesh_files st (i :: idx)) with (Gen.loop mi rnd mesh_files st1 idx).
  assert (Hf : List.filter (fun j => negb (Gen.complete (Gen.fs st1) j)) idx =
               List.filter (fun j => negb (Gen.complete (Gen.fs st) j)) idx).
  { apply filter_ext_in. intros j Hj. subst st1.
    rewrite gen_step_complete_other; [reflexivity|]. intros ->. contradiction. }
  rewrite IH, Hf by exact Hnd. cbn [List.filter].
  destruct (Gen.complete (Gen.fs st) i) eqn:Hi; cbn [negb length]; subst st1.
  - rewrite gen_step_skip by exact Hi. reflexivity.
  - rewrite gen_step_new by exact Hi. simpl. rewrite draw_frame_rng. lia.
Qed.

Lemma gen_run_counts (mi : Mitsuba) (rnd : PyRandom) (mesh_files : list string) n fs0 k0 st' :
  Gen.run mi rnd mesh_files n fs0 k0 = Gen.Done st' ->
  length (Gen.records st') = n - Gen.existing fs0 n /\
  Gen.rng st' = k0 + 21 * (n - Gen.existing fs0 n) /\
  (forall i, i < n -> Gen.complete (Gen.fs st') i = true).
Proof.
  intros Hrun. destruct (gen_run_done _ _ _ _ _ _ _ Hrun) as (Hfs & Hrec & _).
  pose proof (filter_length_split (Gen.complete fs0) (seq 0 n)) as Hsplit.
  rewrite length_seq in Hsplit. unfold Gen.existing.
  split; [|split].
  - rewrite Hrec.
    destruct (gen_loop_records mi rnd mesh_files (seq 0 n) (Gen.mk_state fs0 k0 [] [])
                (seq_NoDup n 0)) as (extra & Hr & Hfa).
    rewrite Hr. apply Forall2_length in Hfa. simpl in *. lia.
  - unfold Gen.run in Hrun. destruct mesh_files; [discriminate|]. injection Hrun as <-.
    simpl. rewrite gen_loop_rng by apply seq_NoDup. simpl in *. lia.
  - intros i Hi. rewrite Hfs. unfold Gen.complete, Gen.path_exists.
    rewrite !lookup_insert_ne by (apply metadata_render_neq || apply metadata_ao_neq).
    pose proof (gen_loop_completes mi rnd mesh_files (seq 0 n) (Gen.mk_state fs0 k0 [] []) i)
      as H. unfold Gen.complete, Gen.path_exists in H. apply H, in_seq. lia.
Qed.

Lemma draw_frame_scene (mi : Mitsuba) (rnd : PyRandom) (mesh_files : list string) k :
  let u (a b : Q) (j : nat) := fst (uniform rnd a b (j + k)) in
  let mesh := fst (choice rnd EmptyString mesh_files k) in
  let center := (mi_bbox mi mesh).1 in
  let extents := (mi_bbox mi mesh).2 in
  let max_extent := Qmax (nth 0 extents 0%Q) (Qmax (nth 1 extents 0%Q) (nth 2 extents 0%Q)) in
  let lt := Gen.light_temp (fst (choice rnd EmptyString ["warm"; "neutral"; "cool"] (8 + k))) in
  let intensity := u (15 # 10) 6%Q 9 in
  let fill := (intensity * u (1 # 10) (4 # 10) 10%nat)%Q in
  let lx := u (-1)%Q 1%Q 5 in
  let ly := u (-2 # 10) 1%Q 6 in
  let lz := u (-1)%Q (-1 # 10) 7 in
  (Gen.draw_frame mi rnd mesh_files k).1.1.1 =
  mk_scene (u 25%Q 60%Q 4) ((max_extent * 1 + 1) * u (6 # 10) (9 # 10) 1%nat)%Q
    (u 0%Q 360%Q 2) (u 10%Q 70%Q 3) center
    (mk_light [lx; ly; lz]
       [(nth 0 lt 0%Q * intensity)%Q; (nth 1 lt 0%Q * intensity)%Q; (nth 2 lt 0%Q * intensity)%Q])
    (mk_light [(- lx)%Q; ly; (- lz)%Q] [fill; fill; fill])
    mesh (u 0%Q 360%Q 11) (u (-20)%Q 20%Q 12)
    (mk_principled [u (1 # 10) (9 # 10) 14; u (1 # 10) (9 # 10) 15; u (1 # 10) (9 # 10) 16]
       (u (1 # 10) (9 # 10) 13) (u 0%Q 1%Q 17) (u 0%Q 1%Q 18) (u 0%Q (8 # 10) 19) (u 0%Q 1%Q 20)).
Proof. unfold_draw. reflexivity. Qed.

Lemma uniform_lt (rnd : PyRandom) a b k :
  rng_valid rnd -> (a < b)%Q -> (fst (uniform rnd a b k) < b)%Q.
Proof.
  intros [Hr _] Hab. rewrite uniform_fst. destruct (Hr k) as [H0 H1].
  assert (Hu : (py_random rnd k * (b - a) < 1 * (b - a))%Q)
    by (apply Qmult_lt_r; [lra|exact H1]).
  lra.
Qed.

Lemma light_temp_bounds s :
  length (Gen.light_temp s) = 3 /\
  Forall (fun c => (7 # 10 <= c <= 13 # 10)%Q) (Gen.light_temp s).
Proof.
  unfold Gen.light_temp.
  destruct (String.eqb s "warm"); [|destruct (String.eqb s "cool")];
    split; try reflexivity; repeat constructor; discriminate.
Qed.

(** Camera of a drawn frame: with a [random] stream whose [random()] lies
    in [0, 1), the field of view is in [25, 60], the azimuth in [0, 360],
    the elevation in [10, 70], the camera looks at the centre of the chosen
    mesh's bounding box, and its distance is (max extent + 1) times a zoom
    factor in [0.6, 0.9]. *)
Theorem gen_camera_ranges (mi : Mitsuba) (rnd : PyRandom) (mesh_files : list string) k :
  rng_valid rnd ->
  let sc := (Gen.draw_frame mi rnd mesh_files k).1.1.1 in
  let center := (mi_bbox mi (sc_mesh sc)).1 in
  let extents := (mi_bbox mi (sc_mesh sc)).2 in
  let max_extent := Qmax (nth 0 extents 0%Q) (Qmax (nth 1 extents 0%Q) (nth 2 extents 0%Q)) in
  (25 <= sc_fov sc <= 60)%Q /\
  (0 <= sc_cam_azimuth sc <= 360)%Q /\
  (10 <= sc_cam_elevation sc <= 70)%Q /\
  sc_target sc = center /\
  exists zoom, (6 # 10 <= zoom <= 9 # 10)%Q /\
               sc_cam_dist sc = ((max_extent * 1 + 1) * zoom)%Q.
Proof.
  intros Hv. cbv zeta. rewrite draw_frame_scene. cbv zeta. cbn [sc_fov sc_cam_azimuth sc_cam_elevation sc_target sc_cam_dist sc_mesh].
  split; [apply uniform_range; [exact Hv|discriminate]|].
  split; [apply uniform_range; [exact Hv|discriminate]|].
  split; [apply uniform_range; [exact Hv|discriminate]|].
  split; [reflexivity|].
  eexists. split; [apply uniform_range; [exact Hv|discriminate]|reflexivity].
Qed.

(** The mesh of a drawn frame is one of the [.obj] files found, its yaw is
    in [0, 360] and its pitch in [-20, 20] degrees. *)
Theorem gen_pose_ranges (mi : Mitsuba) (rnd : PyRandom) (mesh_files : list string) k :
  rng_valid rnd -> mesh_files <> [] ->
  let sc := (Gen.draw_frame mi rnd mesh_files k).1.1.1 in
  In (sc_mesh sc) mesh_files /\
  (0 <= sc_yaw sc <= 360)%Q /\ (-20 <= sc_pitch sc <= 20)%Q.
Proof.
  intros Hv Hne. cbv zeta. rewrite draw_frame_scene. cbv zeta. cbn [sc_yaw sc_pitch sc_mesh].
  split; [apply choice_in; assumption|].
  split; apply uniform_range; try exact Hv; discriminate.
Qed.

(** The Principled BSDF of a drawn frame: three base-colour components and
    the roughness in [0.1, 0.9], sheen, sheen tint and specular in [0, 1],
    anisotropy in [0, 0.8]. *)
Theorem gen_material_ranges (mi : Mitsuba) (rnd : PyRandom) (mesh_files : list string) k :
  rng_valid rnd ->
  let m := sc_bsdf (Gen.draw_frame mi rnd mesh_files k).1.1.1 in
  length (base_color m) = 3 /\
  Forall (fun c => (1 # 10 <= c <= 9 # 10)%Q) (base_color m) /\
  (1 # 10 <= roughness m <= 9 # 10)%Q /\
  (0 <= sheen m <= 1)%Q /\ (0 <= sheen_tint m <= 1)%Q /\
  (0 <= anisotropic m <= 8 # 10)%Q /\ (0 <= specular m <= 1)%Q.
Proof.
  intros Hv. cbv zeta. rewrite draw_frame_scene. cbv zeta.
  cbn [sc_bsdf base_color roughness sheen sheen_tint anisotropic specular].
  split; [reflexivity|].
  split; [repeat constructor; apply uniform_range; try exact Hv; discriminate|].
  repeat split; apply uniform_range; try exact Hv; discriminate.
Qed.

(** Key light of a drawn frame: its direction has x in [-1, 1], y in
    [-0.2, 1] and z in [-1, -0.1]; in each of the three colour channels the
    fill light's irradiance is positive and strictly below the key light's
    (the temperature factors are at least 0.7, the fill factor at most
    0.4). *)
Theorem gen_key_light (mi : Mitsuba) (rnd : PyRandom) (mesh_files : list string) k :
  rng_valid rnd ->
  let sc := (Gen.draw_frame mi rnd mesh_files k).1.1.1 in
  let d := direction (sc_key_light sc) in
  let key := irradiance (sc_key_light sc) in
  let fill := irradiance (sc_fill_light sc) in
  length d = 3 /\
  (-1 <= nth 0 d 0 <= 1)%Q /\ (-2 # 10 <= nth 1 d 0 <= 1)%Q /\
  (-1 <= nth 2 d 0 <= -1 # 10)%Q /\
  length key = 3 /\ length fill = 3 /\
  (forall c : nat, c < 3 -> (0 < nth c fill 0 < nth c key 0)%Q).
Proof.
  intros Hv. cbv zeta. rewrite draw_frame_scene. cbv zeta.
  cbn [sc_key_light sc_fill_light direction irradiance].
  set (lt := Gen.light_temp _).
  destruct (light_temp_bounds
              (fst (choice rnd EmptyString ["warm"; "neutral"; "cool"] (8 + k)))) as [Hl Hlt].
  fold lt in Hlt, Hl.
  set (I := fst (uniform rnd (15 # 10) 6 (9 + k))).
  set (f := fst (uniform rnd (1 # 10) (4 # 10) (10 + k))).
  assert (HI : (15 # 10 <= I)%Q) by (apply uniform_range; [exact Hv|discriminate]).
  assert (Hf1 : (1 # 10 <= f)%Q) by (apply uniform_range; [exact Hv|discriminate]).
  assert (Hf2 : (f <= 4 # 10)%Q) by (apply uniform_range; [exact Hv|discriminate]).
  assert (Hc : forall c, (7 # 10 <= c)%Q -> (0 < I * f < c * I)%Q).
  { intros c Hc. split.
    - apply Qmult_lt_0_compat; lra.
    - apply Qlt_le_trans with ((7 # 10) * I)%Q; [|apply Qmult_le_compat_r; lra].
      apply Qle_lt_trans with (I * (4 # 10))%Q; [apply Qmult_le_l; lra|].
      rewrite Qmult_comm. apply Qmult_lt_r; lra. }
  split; [reflexivity|].
  split; [apply uniform_range; [exact Hv|discriminate]|].
  split; [apply uniform_range; [exact Hv|discriminate]|].
  split; [apply uniform_range; [exact Hv|discriminate]|].
  split; [reflexivity|]. split; [reflexivity|].
  intros c Hc3.
  rewrite List.Forall_forall in Hlt.
  destruct c as [|[|[|c]]]; [| | |lia]; cbn [nth]; apply Hc, Hlt, nth_In; lia.
Qed.

Lemma scale_not_px x :
  (0 <= x <= 255)%Z -> Sketch.scale_px (Z.lxor x 255) = (3 * (255 - x) / 5)%Z.
Proof.
  intros Hx.
  assert (H : forallb (fun n => Z.eqb (Sketch.scale_px (Z.lxor (Z.of_nat n) 255))
                                      (3 * (255 - Z.of_nat n) / 5))
                      (seq 0 256) = true) by (vm_compute; reflexivity).
  rewrite forallb_forall in H. specialize (H (Z.to_nat x)).
  rewrite Z2Nat.id in H by lia. apply Z.eqb_eq, H, in_seq. lia.
Qed.

Lemma all_u8_px (g : list (list Z)) i j x : all_u8 g -> px g i j = Some x -> (0 <= x <= 255)%Z.
Proof.
  unfold all_u8, px. intros Hg Hx.
  case_eq (g !! i); [intros row Hr|intros Hr]; rewrite Hr in Hx; cbn in Hx; [|discriminate].
  exact (Forall_lookup_1 _ _ _ _ (Forall_lookup_1 _ _ _ _ Hg Hr) Hx).
Qed.

(** For a uint8 AO map, the shading layer's pixel is
    [floor(0.6 * (255 - x)) = 3 (255 - x) / 5] for the AO pixel [x]; it is
    between 0 and 153, so the shading alone never reaches the 255 of an
    edge. *)
Theorem sketch_ao_shading_pixel (a : gimg) i j x :
  all_u8 a -> px a i j = Some x ->
  px (Sketch.ao_shading_of a) i j = Some (3 * (255 - x) / 5)%Z /\
  (0 <= 3 * (255 - x) / 5 <= 153)%Z.
Proof.
  intros Ha Hx. pose proof (all_u8_px _ _ _ _ Ha Hx) as Hr.
  unfold Sketch.ao_shading_of, bitwise_not. rewrite !px_map, Hx.
  unfold fmap, option_fmap, option_map.
  rewrite scale_not_px by exact Hr. split; [reflexivity|].
  split; [apply Z.div_pos; lia|]. apply Z.div_le_upper_bound; lia.
Qed.

Lemma digits_aux_length fuel n acc m :
  n <= fuel -> 1 <= m -> n < 10 ^ m ->
  length (Fmt.digits_aux fuel n acc) <= m + length acc.
Proof.
  revert n acc m; induction fuel as [|f IH]; intros n acc m Hf Hm Hn; cbn [Fmt.digits_aux].
  - cbn [length]. lia.
  - destruct (Nat.ltb_spec n 10) as [Hlt|Hge]; [cbn [length]; lia|].
    destruct m as [|m]; [lia|].
    destruct m as [|m]; [cbn in Hn; lia|].
    apply Nat.le_trans with (S m + length (n mod 10 :: acc)); [apply IH|cbn [length]; lia].
    + pose proof (Nat.div_lt n 10 ltac:(lia) ltac:(lia)). lia.
    + lia.
    + apply Nat.Div0.div_lt_upper_bound. rewrite Nat.pow_succ_r' in Hn. lia.
Qed.

Lemma string_of_digits_length ds : String.length (Fmt.string_of_digits ds) = length ds.
Proof. induction ds as [|d ds IH]; cbn; [reflexivity|]. rewrite IH. reflexivity. Qed.

(** Below 10000, [f"{i:04d}"] has exactly four characters and reads back
    as [i]. *)
Theorem format_04d_width i :
  i < 10000 ->
  String.length (Fmt.format_04d i) = 4 /\ Fmt.parse_dec (Fmt.format_04d i) = i.
Proof.
  intros Hi. split; [|apply FmtFacts.parse_format_04d].
  unfold Fmt.format_04d. rewrite string_of_digits_length, length_app, repeat_length.
  assert (length (Fmt.digits i) <= 4); [|lia].
  unfold Fmt.digits. pose proof (digits_aux_length i i [] 4 (le_n i)) as H.
  cbn [length] in H. rewrite Nat.add_0_r in H. apply H; [lia|exact Hi].
Qed.

Lemma all_u8_map_any {A} (f : A -> Z) (g : list (list A)) :
  (forall z, 0 <= f z <= 255)%Z -> all_u8 (map (map f) g).
Proof.
  intros Hf. unfold all_u8.
  induction g as [|r g IH]; simpl; constructor; auto.
  induction r; simpl; constructor; auto.
Qed.

Lemma same_shape_map2 {A C D} (f : A -> C) (g : A -> D) (l : list (list A)) :
  same_shape (map (map f) l) (map (map g) l) = true.
Proof.
  eapply same_shape_trans; [apply same_shape_map|].
  rewrite same_shape_sym. apply same_shape_map.
Qed.

Lemma frame_wf_complete m i : frame_wf m i -> Gen.complete m i = true.
Proof.
  intros (c & a & Hc & Ha & _). unfold Gen.complete, Gen.path_exists. rewrite Hc, Ha. reflexivity.
Qed.

Lemma gen_step_wf_new (mi : Mitsuba) (rnd : PyRandom) (mesh_files : list string) st i :
  Gen.complete (Gen.fs st) i = false ->
  frame_wf (Gen.fs (Gen.frame_step mi rnd mesh_files st i)) i.
Proof.
  intros Hi. rewrite gen_step_new by exact Hi. cbv zeta. cbn [Gen.fs].
  set (buf := mi_render mi _).
  exists (Gen.beauty_of buf), (Gen.ao_of buf). split; [|split; [|split]].
  - rewrite lookup_insert_ne by (apply not_eq_sym, render_ao_path_neq).
    apply lookup_insert_eq.
  - apply lookup_insert_eq.
  - apply same_shape_map2.
  - apply all_u8_map_any. intros z. apply to_u8_range.
Qed.

Lemma gen_loop_wf_keep (mi : Mitsuba) (rnd : PyRandom) (mesh_files : list string) idx st i :
  frame_wf (Gen.fs st) i -> frame_wf (Gen.fs (Gen.loop mi rnd mesh_files st idx)) i.
Proof.
  intros Hw. destruct (gen_loop_keeps_complete mi rnd mesh_files idx st i
                         (frame_wf_complete _ _ Hw)) as [H1 H2].
  destruct Hw as (c & a & Hc & Ha & Hs). exists c, a. rewrite H1, H2. auto.
Qed.

Lemma gen_loop_wf (mi : Mitsuba) (rnd : PyRandom) (mesh_files : list string) idx st :
  List.NoDup idx ->
  (forall i, In i idx -> Gen.complete (Gen.fs st) i = false) ->
  forall i, In i idx -> frame_wf (Gen.fs (Gen.loop mi rnd mesh_files st idx)) i.
Proof.
  revert st; induction idx as [|i idx IH]; intros st Hnd Hc j Hj; [destruct Hj|].
  apply NoDup_cons_iff in Hnd as [Hni Hnd].
  change (Gen.loop mi rnd mesh_files st (i :: idx))
    with (Gen.loop mi rnd mesh_files (Gen.frame_step mi rnd mesh_files st i) idx).
  destruct Hj as [<-|Hj].
  - apply gen_loop_wf_keep, gen_step_wf_new, Hc. left. reflexivity.
  - apply IH; [exact Hnd| |exact Hj].
    intros j' Hj'. rewrite gen_step_complete_other by (intros ->; contradiction).
    apply Hc. right. exact Hj'.
Qed.

Lemma all_u8_ao_shading (a : gimg) : all_u8 a -> all_u8 (Sketch.ao_shading_of a).
Proof.
  unfold all_u8, Sketch.ao_shading_of, bitwise_not. intros Ha.
  induction Ha as [|r g Hr _ IH]; simpl; constructor; [|exact IH].
  induction Hr as [|x r Hx _ IHr]; simpl; constructor; [|exact IHr].
  rewrite scale_not_px by exact Hx. split; [apply Z.div_pos; lia|].
  apply Z.div_le_upper_bound; lia.
Qed.

Lemma all_u8_zip_max (a b : gimg) :
  all_u8 a -> all_u8 b -> all_u8 (zip_with (zip_with Z.max) a b).
Proof.
  unfold all_u8. intros Ha. revert b.
  induction Ha as [|r a Hr _ IH]; intros [|s b] Hb; simpl; try constructor.
  - inversion Hb as [|? ? Hs Hb']; subst. clear Hb Hb'. revert s Hs.
    induction Hr as [|x r Hx _ IHr]; intros [|y s] Hs; simpl; try constructor.
    + inversion Hs; subst. lia.
    + inversion Hs; subst. apply IHr. assumption.
  - inversion Hb; subst. apply IH. assumption.
Qed.

Lemma sketch_step_wf (cv : OpenCV) sst i :
  cv_valid cv -> frame_wf (Sketch.fs sst) i ->
  exists sst' img,
    Sketch.frame_step cv sst (render_basename i) = Some sst' /\
    Sketch.processed sst' = S (Sketch.processed sst) /\
    Sketch.skipped sst' = Sketch.skipped sst /\
    Sketch.fs sst' = <[conditioning_path_of (Fmt.format_04d i) := PngGray img]> (Sketch.fs sst) /\
    all_u8 img.
Proof.
  intros Hcv (c & a & Hc & Ha & Hs & Hu).
  destruct (render_basename_paths i) as [Hr Hf].
  rewrite (frame_step_both_loaded cv sst (render_basename i) c a).
  2:{ unfold imread_color. rewrite Hr, Hc. reflexivity. }
  2:{ unfold imread_grayscale. rewrite Hf, Ha. reflexivity. }
  unfold cv_max.
  assert (E : same_shape (Sketch.canny_edges_of cv c) (Sketch.ao_shading_of a) = true).
  { eapply same_shape_trans; [apply canny_edges_shape, Hcv|].
    eapply same_shape_trans; [rewrite same_shape_sym; exact Hs|].
    rewrite same_shape_sym. apply ao_shading_shape. }
  rewrite E. eexists _, _. split; [reflexivity|]. cbn [Sketch.processed Sketch.skipped Sketch.fs].
  rewrite Hf. split; [reflexivity|]. split; [reflexivity|]. split; [reflexivity|].
  apply all_u8_zip_max; [|apply all_u8_ao_shading, Hu].
  destruct Hcv as (_ & _ & _ & H4). apply H4.
Qed.

Lemma sketch_insert_keeps (m : FS) s img j :
  (frame_wf m j -> frame_wf (<[conditioning_path_of s := PngGray img]> m) j).
Proof.
  intros (c & a & Hc & Ha & Hs). exists c, a.
  rewrite !lookup_insert_ne by (apply conditioning_render_neq || apply conditioning_ao_neq).
  auto.
Qed.

Lemma cond_u8_insert (m : FS) i img j :
  all_u8 img -> cond_u8 m j \/ j = i ->
  cond_u8 (<[conditioning_path_of (Fmt.format_04d i) := PngGray img]> m) j.
Proof.
  intros Himg Hj. unfold cond_u8.
  destruct (decide (i = j)) as [<-|Hne].
  - exists img. rewrite lookup_insert_eq. auto.
  - rewrite lookup_insert_ne.
    + destruct Hj as [Hj| ->]; [exact Hj|congruence].
    + intros E. apply Hne, format_04d_inj.
      unfold conditioning_path_of in E. apply str_app_inv_tail with ".png".
      (* strip the common prefix *)
      revert E. cbn [String.append]. intros E. repeat (injection E as E). exact E.
Qed.

Lemma sketch_loop_wf (cv : OpenCV) idx sst :
  cv_valid cv ->
  (forall i, In i idx -> frame_wf (Sketch.fs sst) i) ->
  exists sst',
    Sketch.loop cv sst (map render_basename idx) = Sketch.Finished sst' /\
    Sketch.processed sst' = Sketch.processed sst + length idx /\
    Sketch.skipped sst' = Sketch.skipped sst /\
    (forall j, In j idx \/ cond_u8 (Sketch.fs sst) j -> cond_u8 (Sketch.fs sst') j).
Proof.
  intros Hcv. revert sst; induction idx as [|i idx IH]; intros sst Hw.
  - exists sst. split; [reflexivity|]. split; [cbn; lia|]. split; [reflexivity|].
    intros j [[]|Hj]. exact Hj.
  - destruct (sketch_step_wf cv sst i Hcv) as (sst1 & img & Hst & Hp & Hs & Hfs & Hu);
      [apply Hw; left; reflexivity|].
    destruct (IH sst1) as (sst' & Hl & Hp' & Hs' & Hc).
    { intros j Hj. rewrite Hfs. apply sketch_insert_keeps, Hw. right. exact Hj. }
    exists sst'. cbn [map Sketch.loop]. rewrite Hst, Hl.
    split; [reflexivity|]. split; [cbn [length]; lia|]. split; [congruence|].
    intros j Hj. apply Hc.
    destruct (in_dec Nat.eq_dec j idx) as [Hin|Hnin]; [left; exact Hin|right].
    rewrite Hfs. apply cond_u8_insert; [exact Hu|].
    destruct Hj as [[<-|Hj]|Hj]; [right; reflexivity|contradiction|left; exact Hj].
Qed.

(** The two scripts compose: after a generator run over [n > 0] frames none
    of which was complete before, the sketch stage run on the [n] render
    basenames (with OpenCV behaving as documented) finishes without an
    exception, processes all [n] frames, skips none, and leaves a uint8
    grayscale conditioning image for every frame. *)
Theorem pipeline_fresh_frames_sketched (mi : Mitsuba) (rnd : PyRandom)
  (mesh_files : list string) (cv : OpenCV) n fs0 k0 st' :
  cv_valid cv ->
  (forall i, i < n -> Gen.complete fs0 i = false) ->
  Gen.run mi rnd mesh_files n fs0 k0 = Gen.Done st' ->
  0 < n ->
  exists sst,
    Sketch.run cv (Gen.fs st') (map render_basename (seq 0 n)) = Sketch.Ran (Sketch.Finished sst) /\
    Sketch.processed sst = n /\ Sketch.skipped sst = 0 /\
    forall i, i < n -> exists img,
      Sketch.fs sst !! conditioning_path_of (Fmt.format_04d i) = Some (PngGray img) /\ all_u8 img.
Proof.
  intros Hcv Hfresh Hrun Hn.
  destruct (gen_run_done _ _ _ _ _ _ _ Hrun) as (Hfs & _ & _).
  destruct (sketch_loop_wf cv (seq 0 n) (Sketch.mk_state (Gen.fs st') 0 0 []) Hcv)
    as (sst & Hl & Hp & Hs & Hc).
  { intros i Hi. cbn [Sketch.fs]. rewrite Hfs.
    destruct (gen_loop_wf mi rnd mesh_files (seq 0 n) (Gen.mk_state fs0 k0 [] [])
                (seq_NoDup n 0)) with (i := i) as (c & a & Hc & Ha & Hsh);
      [intros j Hj; apply Hfresh; apply in_seq in Hj; lia|exact Hi|].
    exists c, a.
    rewrite !lookup_insert_ne by (apply metadata_render_neq || apply metadata_ao_neq).
    auto. }
  exists sst. split; [|split; [|split]].
  - unfold Sketch.run. destruct n as [|n]; [lia|]. cbn [seq map]. cbn [seq map] in Hl.
    rewrite Hl. reflexivity.
  - rewrite Hp, length_seq. reflexivity.
  - exact Hs.
  - intros i Hi. apply Hc. left. apply in_seq. lia.
Qed.

(** The number of metadata records a generator run writes is the sample
    count minus the [existing] frames of its checkpoint line. *)
Theorem gen_run_records_count (mi : Mitsuba) (rnd : PyRandom) (mesh_files : list string)
  n fs0 k0 st' :
  Gen.run mi rnd mesh_files n fs0 k0 = Gen.Done st' ->
  length (Gen.records st') = n - Gen.existing fs0 n.
Proof. intros H. apply (gen_run_counts _ _ _ _ _ _ _ H). Qed.

(** A generator run makes 21 [random] calls per frame it renders and none
    for a skipped frame: the stream ends 21 * (n - existing) positions
    after where it started. *)
Theorem gen_run_rng_draws (mi : Mitsuba) (rnd : PyRandom) (mesh_files : list string)
  n fs0 k0 st' :
  Gen.run mi rnd mesh_files n fs0 k0 = Gen.Done st' ->
  Gen.rng st' = k0 + 21 * (n - Gen.existing fs0 n).
Proof. intros H. apply (gen_run_counts _ _ _ _ _ _ _ H). Qed.

(** After a generator run every frame below the sample count has both its
    beauty render and its AO map. *)
Theorem gen_run_all_complete (mi : Mitsuba) (rnd : PyRandom) (mesh_files : list string)
  n fs0 k0 st' :
  Gen.run mi rnd mesh_files n fs0 k0 = Gen.Done st' ->
  forall i, i < n -> Gen.complete (Gen.fs st') i = true.
Proof. intros H. apply (gen_run_counts _ _ _ _ _ _ _ H). Qed.

Lemma gen_run_records_count_witness :
  exists st', Gen.run mi_sample rnd_sample sample_meshes 2 fs_frame0 0 = Gen.Done st' /\
    length (Gen.records st') = 2 - Gen.existing fs_frame0 2 /\ length (Gen.records st') = 1.
Proof.
  eexists. split; [vm_compute; reflexivity|]. split; [|vm_compute; reflexivity].
  apply (gen_run_records_count mi_sample rnd_sample sample_meshes 2 fs_frame0 0).
  vm_compute. reflexivity.
Defined.

Lemma gen_run_rng_draws_witness :
  exists st', Gen.run mi_sample rnd_sample sample_meshes 2 fs_frame0 0 = Gen.Done st' /\
    Gen.rng st' = 0 + 21 * (2 - Gen.existing fs_frame0 2) /\ Gen.rng st' = 21.
Proof.
  eexists. split; [vm_compute; reflexivity|]. split; [|vm_compute; reflexivity].
  apply (gen_run_rng_draws mi_sample rnd_sample sample_meshes 2 fs_frame0 0).
  vm_compute. reflexivity.
Defined.

Lemma gen_run_all_complete_witness :
  exists st', Gen.run mi_sample rnd_sample sample_meshes 2 ∅ 0 = Gen.Done st' /\
    Gen.complete (Gen.fs st') 1 = true.
Proof.
  eexists. split; [vm_compute; reflexivity|].
  apply (gen_run_all_complete mi_sample rnd_sample sample_meshes 2 ∅ 0); [|lia].
  vm_compute. reflexivity.
Defined.

Lemma gen_camera_ranges_witness :
  rng_valid rnd_sample /\
  (let sc := (Gen.draw_frame mi_sample rnd_sample sample_meshes 0).1.1.1 in
   let center := (mi_bbox mi_sample (sc_mesh sc)).1 in
   let extents := (mi_bbox mi_sample (sc_mesh sc)).2 in
   let max_extent := Qmax (nth 0 extents 0%Q) (Qmax (nth 1 extents 0%Q) (nth 2 extents 0%Q)) in
   (25 <= sc_fov sc <= 60)%Q /\
   (0 <= sc_cam_azimuth sc <= 360)%Q /\
   (10 <= sc_cam_elevation sc <= 70)%Q /\
   sc_target sc = center /\
   exists zoom, (6 # 10 <= zoom <= 9 # 10)%Q /\
                sc_cam_dist sc = ((max_extent * 1 + 1) * zoom)%Q).
Proof.
  split; [exact rnd_sample_valid|].
  apply (gen_camera_ranges mi_sample rnd_sample sample_meshes 0). exact rnd_sample_valid.
Defined.

Lemma gen_pose_ranges_witness :
  rng_valid rnd_sample /\ sample_meshes <> [] /\
  (let sc := (Gen.draw_frame mi_sample rnd_sample sample_meshes 0).1.1.1 in
   In (sc_mesh sc) sample_meshes /\
   (0 <= sc_yaw sc <= 360)%Q /\ (-20 <= sc_pitch sc <= 20)%Q).
Proof.
  split; [exact rnd_sample_valid|]. split; [discriminate|].
  apply (gen_pose_ranges mi_sample rnd_sample sample_meshes 0);
    [exact rnd_sample_valid|discriminate].
Defined.

Lemma gen_material_ranges_witness :
  rng_valid rnd_sample /\
  (let m := sc_bsdf (Gen.draw_frame mi_sample rnd_sample sample_meshes 0).1.1.1 in
   length (base_color m) = 3 /\
   Forall (fun c => (1 # 10 <= c <= 9 # 10)%Q) (base_color m) /\
   (1 # 10 <= roughness m <= 9 # 10)%Q /\
   (0 <= sheen m <= 1)%Q /\ (0 <= sheen_tint m <= 1)%Q /\
   (0 <= anisotropic m <= 8 # 10)%Q /\ (0 <= specular m <= 1)%Q).
Proof.
  split; [exact rnd_sample_valid|].
  apply (gen_material_ranges mi_sample rnd_sample sample_meshes 0). exact rnd_sample_valid.
Defined.

Lemma gen_key_light_witness :
  rng_valid rnd_sample /\
  (let sc := (Gen.draw_frame mi_sample rnd_sample sample_meshes 0).1.1.1 in
   let d := direction (sc_key_light sc) in
   let key := irradiance (sc_key_light sc) in
   let fill := irradiance (sc_fill_light sc) in
   length d = 3 /\
   (-1 <= nth 0 d 0 <= 1)%Q /\ (-2 # 10 <= nth 1 d 0 <= 1)%Q /\
   (-1 <= nth 2 d 0 <= -1 # 10)%Q /\
   length key = 3 /\ length fill = 3 /\
   (forall c : nat, c < 3 -> (0 < nth c fill 0 < nth c key 0)%Q)).
Proof.
  split; [exact rnd_sample_valid|].
  apply (gen_key_light mi_sample rnd_sample sample_meshes 0). exact rnd_sample_valid.
Defined.

Lemma sketch_ao_shading_pixel_witness :
  all_u8 [[100%Z]] /\ px [[100%Z]] 0 0 = Some 100%Z /\
  px (Sketch.ao_shading_of [[100%Z]]) 0 0 = Some (3 * (255 - 100) / 5)%Z /\
  (0 <= 3 * (255 - 100) / 5 <= 153)%Z.
Proof.
  split; [repeat constructor; lia|]. split; [reflexivity|].
  apply sketch_ao_shading_pixel; [repeat constructor; lia|reflexivity].
Defined.

Lemma format_04d_width_witness :
  42 < 10000 /\ String.length (Fmt.format_04d 42) = 4 /\ Fmt.parse_dec (Fmt.format_04d 42) = 42.
Proof.
  assert (H : 42 < 10000) by (apply Nat.ltb_lt; vm_compute; reflexivity).
  split; [exact H|]. apply format_04d_width. exact H.
Defined.

Lemma pipeline_fresh_frames_sketched_witness :
  cv_valid cv_sample /\ (forall i, i < 2 -> Gen.complete ∅ i = false) /\
  exists st', Gen.run mi_sample rnd_sample sample_meshes 2 ∅ 0 = Gen.Done st' /\
  exists sst,
    Sketch.run cv_sample (Gen.fs st') (map render_basename (seq 0 2)) =
      Sketch.Ran (Sketch.Finished sst) /\
    Sketch.processed sst = 2 /\ Sketch.skipped sst = 0 /\
    forall i, i < 2 -> exists img,
      Sketch.fs sst !! conditioning_path_of (Fmt.format_04d i) = Some (PngGray img) /\ all_u8 img.
Proof.
  split; [exact cv_sample_valid|].
  split; [intros [|[|i]] Hi; [reflexivity|reflexivity|lia]|].
  eexists. split; [vm_compute; reflexivity|].
  apply (pipeline_fresh_frames_sketched mi_sample rnd_sample sample_meshes cv_sample 2 ∅ 0).
  - exact cv_sample_valid.
  - intros [|[|i]] Hi; [reflexivity|reflexivity|lia].
  - vm_compute. reflexivity.
  - lia.
Defined.
